(** * The two example React components: OrderList and UserProfile

    A shallow embedding of the two components of the repository (the order
    list of [src/unnamed/part_000] and [src/components/UserProfile.tsx]).

    Each component is a transition system.  Its world holds the hook state
    of the component together with the part of the browser the code talks
    to: the requests issued with [fetch], the promise chains still waiting
    for a response, the intervals registered with [setInterval], the
    messages passed to [alert] and to [console.log].  Events are what can
    happen to a component: mounting, re-rendering, unmounting, a timer
    firing, a response arriving or failing, and the user operating a
    rendered control.

    Rendering.  React renders again after a state change; here a render is
    an event of its own that may occur whenever the component is live, so
    every order in which React can interleave renders with the other
    events is among the runs.  A handler acts with the state variables of
    the last render.  An event that names an order or an item does not
    check that this order or item is on screen.  Setters keep working on
    the cells of an unmounted component, whose state nobody renders.

    Data.  The JSON payloads are typed [any] in the source.  A response is
    taken to have the shape its reader expects: a list of orders for the
    order requests, a user object with an array of items for the user
    request.  Scalar fields are primitive JavaScript values ([value]),
    [undefined] standing for an absent property; the fields that enter
    arithmetic are numbers.  The numbers of a payload are finite and are
    written as rationals.  The arithmetic on them is that of IEEE 754
    binary64 ([number_add], [number_mul]): every product and every sum is
    rounded to the nearest double, ties to even, and may overflow to an
    infinity, so a computed number is a [number].  The sign of a zero is
    not kept.  Counters that only go up by one are integers.
    [Number.prototype.toString] is a primitive of the runtime and is taken
    as a parameter ([NumberFormat]). *)

From Stdlib Require Import QArith Qabs Qcanon ZArith Ascii.
From stdpp Require Import base option list strings numbers pretty.

Open Scope string_scope.
Open Scope list_scope.

(** ** Primitive JavaScript values *)

Inductive value : Type :=
| VUndefined
| VNull
| VBool (b : bool)
| VNum (q : Qc)
| VStr (s : string).

#[global] Instance value_eq_dec : EqDecision value.
Proof. solve_decision. Defined.

(** [ToBoolean]: the falsy primitives are [undefined], [null], [false],
    [0] and the empty string. *)
Definition truthy (v : value) : bool :=
  match v with
  | VUndefined | VNull => false
  | VBool b => b
  | VNum q => negb (bool_decide (q = 0%Qc))
  | VStr s => negb (bool_decide (s = ""))
  end.

Definition falsy (v : value) : bool := negb (truthy v).

Class NumberFormat := number_to_string : Qc → string.

(** [ToString] on primitives, as applied by a template literal and by [+]
    when the other operand is a string. *)
Definition to_string `{NumberFormat} (v : value) : string :=
  match v with
  | VUndefined => "undefined"
  | VNull => "null"
  | VBool true => "true"
  | VBool false => "false"
  | VNum q => number_to_string q
  | VStr s => s
  end.

(** [v == "lit"] for a literal that does not read as a number: among the
    primitives only the string itself compares equal. *)
Definition eq_literal (v : value) (lit : string) : bool :=
  match v with
  | VStr s => bool_decide (s = lit)
  | _ => false
  end.

(** [a !== b] on primitives. *)
Definition strict_ne (a b : value) : bool := negb (bool_decide (a = b)).

(** [StringToNumber] is a primitive of the runtime as well; [None] stands
    for a result that equals no finite number. *)
Class NumberParse := string_to_number : string → option Qc.

Definition bool_to_number (b : bool) : Qc := if b then 1%Qc else 0%Qc.

(** A number against the number a primitive converts to, for [==]. *)
Definition number_eq `{NumberParse} (n : Qc) (v : value) : bool :=
  match v with
  | VNum m => bool_decide (n = m)
  | VStr s => bool_decide (string_to_number s = Some n)
  | VBool b => bool_decide (n = bool_to_number b)
  | VUndefined | VNull => false
  end.

(** [a == b] on primitives: values of one type compare strictly, [null]
    and [undefined] equal each other and nothing else, a boolean is
    converted to a number, and a number meets a string as a number. *)
Definition loose_eq `{NumberParse} (a b : value) : bool :=
  match a, b with
  | (VUndefined | VNull), (VUndefined | VNull) => true
  | (VUndefined | VNull), _ | _, (VUndefined | VNull) => false
  | VStr s, VStr t => bool_decide (s = t)
  | VNum n, _ => number_eq n b
  | VBool x, _ => number_eq (bool_to_number x) b
  | VStr _, VNum m => number_eq m a
  | VStr _, VBool y => number_eq (bool_to_number y) a
  end.

(** ** Arithmetic

    The result of [+] and [*] on numbers: a finite double, an infinity of
    either sign, or NaN. *)

Inductive number : Type :=
| Finite (q : Qc)
| Infinite (negative : bool)
| NaN.

(** [2 ^ e] for an integer [e] of either sign. *)
Definition pow2 (e : Z) : Q :=
  if (0 <=? e)%Z then inject_Z (2 ^ e) else / inject_Z (2 ^ (- e)).

(** The [e] with [2 ^ e ≤ q < 2 ^ (e + 1)], for [q] above 0. *)
Definition floor_log2 (q : Q) : Z :=
  let e := (Z.log2 (Qnum q) - Z.log2 (Z.pos (Qden q)))%Z in
  if Qle_bool (pow2 e) q then e else (e - 1)%Z.

(** The integer nearest to [q], for [q] not below 0; of two equally near
    the even one. *)
Definition round_half_even (q : Q) : Z :=
  let f := (Qnum q / Z.pos (Qden q))%Z in
  let r := (Qnum q mod Z.pos (Qden q))%Z in
  match (2 * r ?= Z.pos (Qden q))%Z with
  | Lt => f
  | Gt => (f + 1)%Z
  | Eq => if Z.even f then f else (f + 1)%Z
  end.

(** The double nearest to the rational [q]: 53 bits of precision, the
    exponent not below -1022 (below that the doubles are evenly spaced),
    and an infinity once the rounded value reaches [2 ^ 1024]. *)
Definition to_double (q : Qc) : number :=
  if Qeq_bool q 0 then Finite 0%Qc
  else
    let a := Qabs q in
    let e := Z.max (floor_log2 a) (-1022) in
    let ulp := pow2 (e - 52) in
    let r := (inject_Z (round_half_even (a / ulp)) * ulp)%Q in
    let negative := negb (Qle_bool 0 q) in
    if Qle_bool (pow2 1024) r then Infinite negative
    else Finite (Q2Qc (if negative then - r else r)).

(** [a * b] on finite numbers. *)
Definition number_mul (a b : Qc) : number := to_double (a * b)%Qc.

(** [x + y]. *)
Definition number_add (x y : number) : number :=
  match x, y with
  | NaN, _ | _, NaN => NaN
  | Infinite s, Infinite s' => if Bool.eqb s s' then Infinite s else NaN
  | Infinite s, Finite _ | Finite _, Infinite s => Infinite s
  | Finite a, Finite b => to_double (a + b)%Qc
  end.

(** A rational that is a double: rounding leaves it as it is. *)
Definition unrounded (q : Qc) : Prop := to_double q = Finite q.

Definition is_double (q : Qc) : bool :=
  match to_double q with
  | Finite r => Qeq_bool r q
  | _ => false
  end.

(** ** Requests *)

Inductive Method := GET | DELETE.

#[global] Instance Method_eq_dec : EqDecision Method.
Proof. solve_decision. Defined.

Record Request := { method : Method; url : string }.

#[global] Instance Request_eq_dec : EqDecision Request.
Proof. solve_decision. Defined.

(** ** The REST interface as the specification lists it

    [GET /orders], [DELETE /orders/:id], [GET /orders/search],
    [GET /users/:id] and [DELETE /items/:id].  A parameter stands for the
    text the component puts in its place. *)

Inductive Endpoint :=
| GetOrders
| DeleteOrder (i : string)
| SearchOrders (q : string)
| GetUser (i : string)
| DeleteItem (i : string).

Definition endpoint_method (e : Endpoint) : Method :=
  match e with
  | GetOrders | SearchOrders _ | GetUser _ => GET
  | DeleteOrder _ | DeleteItem _ => DELETE
  end.

(** Path and query of the request. *)
Definition endpoint_target (e : Endpoint) : string :=
  match e with
  | GetOrders => "/orders"
  | DeleteOrder i => "/orders/" +:+ i
  | SearchOrders q => "/orders/search" +:+ "?q=" +:+ q
  | GetUser i => "/users/" +:+ i
  | DeleteItem i => "/items/" +:+ i
  end.

(** The request that reaches endpoint [e] of the API at [origin]. *)
Definition request_to (origin : string) (e : Endpoint) : Request :=
  {| method := endpoint_method e; url := origin +:+ endpoint_target e |}.

(** ** Effects

    [useEffect(body)] has no dependency array and runs after every render;
    [useEffect(body, [])] runs after the first render only.  The function an
    effect body returns, when it returns one, is its cleanup. *)

Inductive Deps := NoDeps | EmptyDeps.

Record Effect (W : Type) := {
  body : W → W;
  deps : Deps;
  cleanup : option (W → W);
}.
Arguments body {W}. Arguments deps {W}. Arguments cleanup {W}.

(** A block of statements. *)
Definition block {W : Type} (stmts : list (W → W)) (w : W) : W :=
  foldl (λ w s, s w) w stmts.

Definition run_cleanup {W : Type} (e : Effect W) : W → W :=
  default id (cleanup e).

Definition every_render {W : Type} (e : Effect W) : bool :=
  match deps e with NoDeps => true | EmptyDeps => false end.

(** Effects of the first commit, of a later commit, and of the unmount. *)
Definition commit_mount {W : Type} (es : list (Effect W)) : W → W :=
  block (body <$> es).

Definition commit_update {W : Type} (es : list (Effect W)) : W → W :=
  let again := filter (λ e, every_render e = true) es in
  block ((run_cleanup <$> again) ++ (body <$> again)).

Definition commit_unmount {W : Type} (es : list (Effect W)) : W → W :=
  block (run_cleanup <$> es).

Inductive Phase := Fresh | Live | Gone.

#[global] Instance Phase_eq_dec : EqDecision Phase.
Proof. solve_decision. Defined.

(** ** OrderList ([src/unnamed/part_000]) *)

Module OrderList.

Record OrderItem := {
  name : value;
  item_price : Qc;
  qty : Qc;
}.

Record Order := {
  id : value;
  status : value;
  customerName : value;
  price : Qc;
  quantity : Qc;
  thumbnail : value;
  memo : value;
  items : list OrderItem;
  receiptUrl : value;
}.

(** The six [useState] cells, with their initial values. *)
Record State := {
  orders : list Order;
  total : number;
  loading : bool;
  error : value;
  selectedId : value;
  trigger : Z;
}.

Definition initial : State :=
  {| orders := []; total := Finite 0%Qc; loading := false; error := VNull;
     selectedId := VNull; trigger := 0 |}.

(** What a promise chain does once its response has been parsed. *)
Inductive Cont :=
| ThenInitial   (* first effect: setOrders, the total, setLoading(false) *)
| ThenPoll      (* interval callback: setOrders(d) *)
| ThenSearch    (* search input: setOrders(d) *)
| Unused.       (* handleDelete: the promise is not used *)

Inductive TimerCallback := Poll.

Record Interval := { callback : TimerCallback; delay : Z }.

Record World := {
  st : State;
  phase : Phase;
  requests : list Request;     (* every fetch issued, oldest first *)
  inflight : list Cont;        (* chains still waiting for a response *)
  intervals : list Interval;   (* registered and not cleared *)
  alerts : list string;
}.

Definition boot : World :=
  {| st := initial; phase := Fresh; requests := []; inflight := [];
     intervals := []; alerts := [] |}.

Definition with_st (f : State → State) (w : World) : World :=
  {| st := f (st w); phase := phase w; requests := requests w;
     inflight := inflight w; intervals := intervals w; alerts := alerts w |}.

Definition with_phase (p : Phase) (w : World) : World :=
  {| st := st w; phase := p; requests := requests w;
     inflight := inflight w; intervals := intervals w; alerts := alerts w |}.

Definition setOrders (d : list Order) : World → World :=
  with_st (λ s, {| orders := d; total := total s; loading := loading s;
                   error := error s; selectedId := selectedId s;
                   trigger := trigger s |}).

Definition setTotal (t : number) : World → World :=
  with_st (λ s, {| orders := orders s; total := t; loading := loading s;
                   error := error s; selectedId := selectedId s;
                   trigger := trigger s |}).

Definition setLoading (b : bool) : World → World :=
  with_st (λ s, {| orders := orders s; total := total s; loading := b;
                   error := error s; selectedId := selectedId s;
                   trigger := trigger s |}).

Definition setTrigger (f : Z → Z) : World → World :=
  with_st (λ s, {| orders := orders s; total := total s; loading := loading s;
                   error := error s; selectedId := selectedId s;
                   trigger := f (trigger s) |}).

(** [fetch(url, { method })] followed by the chain [k]. *)
Definition fetch (m : Method) (u : string) (k : Cont) (w : World) : World :=
  {| st := st w; phase := phase w;
     requests := requests w ++ [{| method := m; url := u |}];
     inflight := inflight w ++ [k];
     intervals := intervals w; alerts := alerts w |}.

Definition setInterval (cb : TimerCallback) (ms : Z) (w : World) : World :=
  {| st := st w; phase := phase w; requests := requests w;
     inflight := inflight w;
     intervals := intervals w ++ [{| callback := cb; delay := ms |}];
     alerts := alerts w |}.

Definition alert (msg : string) (w : World) : World :=
  {| st := st w; phase := phase w; requests := requests w;
     inflight := inflight w; intervals := intervals w;
     alerts := alerts w ++ [msg] |}.

Definition orders_url : string := "http://api.example.com/orders".

(** The [for] loop of the first effect, from index [i] with accumulator
    [t]; [fuel] bounds the number of iterations. *)
Fixpoint total_loop (data : list Order) (fuel i : nat) (t : number) : number :=
  match fuel with
  | O => t
  | S fuel' =>
      match data !! i with
      | Some o =>
          total_loop data fuel' (S i)
            (number_add t (number_mul (price o) (quantity o)))
      | None => t
      end
  end.

Definition compute_total (data : list Order) : number :=
  total_loop data (length data) 0 (Finite 0%Qc).

(** The sum of [price * quantity] from left to right in the arithmetic of
    the language, starting from [t]. *)
Definition double_sum (t : number) (data : list Order) : number :=
  foldl (λ t o, number_add t (number_mul (price o) (quantity o))) t data.

(** No product and no partial sum over [data], added to [t], is rounded. *)
Fixpoint sums_unrounded (t : Qc) (data : list Order) : Prop :=
  match data with
  | [] => True
  | o :: rest =>
      unrounded (price o * quantity o)%Qc
      ∧ unrounded (t + price o * quantity o)%Qc
      ∧ sums_unrounded (t + price o * quantity o)%Qc rest
  end.

(** The sum of [price * quantity] over a list of orders, as mathematics
    writes it. *)
Definition order_sum (data : list Order) : Qc :=
  foldr (λ o acc, price o * quantity o + acc)%Qc 0%Qc data.

(** The interval of the second effect. *)
Definition poll_interval : Interval := {| callback := Poll; delay := 1000 |}.

(** The requests that go to the order endpoints of the API. *)
Definition origin : string := "http://api.example.com".

Definition order_endpoint (r : Request) : Prop :=
  r = request_to origin GetOrders
  ∨ (∃ i, r = request_to origin (DeleteOrder i))
  ∨ (∃ q, r = request_to origin (SearchOrders q)).

Section WithFormat.
Context `{NumberFormat}.

(** The two effects, in source order. *)
Definition fetchEffect : Effect World :=
  {| body := block [setLoading true; fetch GET orders_url ThenInitial];
     deps := NoDeps;
     cleanup := None |}.

Definition pollEffect : Effect World :=
  {| body := setInterval Poll 1000;
     deps := EmptyDeps;
     cleanup := None |}.

Definition effects : list (Effect World) := [fetchEffect; pollEffect].

Definition fire (cb : TimerCallback) : World → World :=
  match cb with
  | Poll => fetch GET orders_url ThenPoll
  end.

Definition resume (k : Cont) (data : list Order) : World → World :=
  match k with
  | ThenInitial =>
      block [setOrders data; setTotal (compute_total data); setLoading false]
  | ThenPoll => setOrders data
  | ThenSearch => setOrders data
  | Unused => block []
  end.

Definition handleDelete (i : value) : World → World :=
  block [fetch DELETE ("http://api.example.com/orders/" +:+ to_string i) Unused;
         alert "삭제됨";
         setTrigger (λ p, p + 1)%Z].

Definition onSearchChange (text : string) : World → World :=
  fetch GET ("http://api.example.com/orders/search?q=" +:+ text) ThenSearch.

Definition getStatusColor (status : value) : string :=
  if eq_literal status "pending" then "orange"
  else if eq_literal status "completed" then "green"
  else if eq_literal status "cancelled" then "red"
  else if eq_literal status "pending" then "yellow"
  else "gray".

(** [formatPrice].  The pattern [/\B(?=(\d{3})+(?!\d))/g] matches the empty
    string at positions of the text; [replace] puts a comma at each. *)

(** [\d] and the word characters of [\B]. *)
Definition is_digit (c : ascii) : bool :=
  (48 <=? nat_of_ascii c)%nat && (nat_of_ascii c <=? 57)%nat.

Definition is_word (c : ascii) : bool :=
  is_digit c
  || ((65 <=? nat_of_ascii c)%nat && (nat_of_ascii c <=? 90)%nat)
  || ((97 <=? nat_of_ascii c)%nat && (nat_of_ascii c <=? 122)%nat)
  || (nat_of_ascii c =? 95)%nat.

Definition starts_with_digit (s : string) : bool :=
  match s with
  | String c _ => is_digit c
  | EmptyString => false
  end.

(** [(?=(\d{3})+(?!\d))] at the head of [s]: three digits, and then
    either no digit or the same again. *)
Fixpoint lookahead (s : string) : bool :=
  match s with
  | String a (String b (String c rest)) =>
      is_digit a && is_digit b && is_digit c
      && (negb (starts_with_digit rest) || lookahead rest)
  | _ => false
  end.

(** [\B] between the character [prev] (none at the start) and the head
    of [s] (none at the end): both are word characters or neither is. *)
Definition not_boundary (prev : option ascii) (s : string) : bool :=
  let next := match s with String c _ => Some c | EmptyString => None end in
  bool_decide (from_option is_word false prev = from_option is_word false next).

(** [text.replace(pattern, ",")]: every position of the text is tried once,
    against the text as it was. *)
Fixpoint separate (prev : option ascii) (s : string) : string :=
  match s with
  | EmptyString =>
      if not_boundary prev s && lookahead s then "," else ""
  | String c rest =>
      let tail := String c (separate (Some c) rest) in
      if not_boundary prev s && lookahead s then String ","%char tail else tail
  end.

Definition formatPrice (price : Qc) : string :=
  separate None (number_to_string price) +:+ "원".

(** The rendered tree, reduced to the nodes that show data: per order the
    colour of the row, the customer name, the quantity, the image source,
    the raw HTML handed to [dangerouslySetInnerHTML], the item names and the
    receipt link.  The border of the row, the paragraphs built with
    [formatPrice] and the amounts of the items are left out. *)
Record Row := {
  color : string;
  customer : value;
  pieces : Qc;
  src : value;
  dangerouslySetInnerHTML : value;
  item_names : list value;
  href : value;
}.

Record View := {
  spinner : bool;
  rows : list Row;
}.

Definition render_order (order : Order) : Row :=
  {| color := getStatusColor (status order);
     customer := customerName order;
     pieces := quantity order;
     src := thumbnail order;
     dangerouslySetInnerHTML := memo order;
     item_names := name <$> items order;
     href := receiptUrl order |}.

Definition render (s : State) : View :=
  {| spinner := loading s; rows := render_order <$> orders s |}.

Inductive Event :=
| Mount
| Render
| Unmount
| Tick (n : nat)                         (* the n-th interval fires *)
| Resolve (n : nat) (data : list Order)  (* the n-th chain gets its JSON;
                                            a chain that reads none ignores it *)
| Reject (n : nat)                       (* the n-th chain is rejected *)
| ClickOrder (i : value)                 (* onClick of a row of order.id i *)
| ChangeSearch (text : string).          (* onChange of the search input *)

Definition settle (n : nat) (w : World) : World :=
  {| st := st w; phase := phase w; requests := requests w;
     inflight := delete n (inflight w);
     intervals := intervals w; alerts := alerts w |}.

Definition live (w : World) : bool := bool_decide (phase w = Live).

Definition step (w : World) (e : Event) : option World :=
  match e with
  | Mount =>
      if bool_decide (phase w = Fresh)
      then Some (commit_mount effects (with_phase Live w)) else None
  | Render =>
      if live w then Some (commit_update effects w) else None
  | Unmount =>
      if live w then Some (with_phase Gone (commit_unmount effects w)) else None
  | Tick n =>
      cb ← callback <$> intervals w !! n; Some (fire cb w)
  | Resolve n data =>
      k ← inflight w !! n; Some (resume k data (settle n w))
  | Reject n =>
      _ ← inflight w !! n; Some (settle n w)
  | ClickOrder i =>
      if live w then Some (handleDelete i w) else None
  | ChangeSearch text =>
      if live w then Some (onSearchChange text w) else None
  end.

Fixpoint run (w : World) (es : list Event) : option World :=
  match es with
  | [] => Some w
  | e :: es' => w' ← step w e; run w' es'
  end.

Definition reachable (w : World) : Prop := ∃ es, run boot es = Some w.

(** Runs in which no fetch of the first effect succeeds: an event that
    would hand a response to such a chain is refused. *)
Definition fulfils_initial (w : World) (e : Event) : bool :=
  match e with
  | Resolve n _ =>
      match inflight w !! n with Some ThenInitial => true | _ => false end
  | _ => false
  end.

Fixpoint run_failing (w : World) (es : list Event) : option World :=
  match es with
  | [] => Some w
  | e :: es' =>
      if fulfils_initial w e then None
      else w' ← step w e; run_failing w' es'
  end.

(** The total as the specification has it: when the response [data]
    reaches the [n]-th chain, [total] is the sum in exact arithmetic. *)
Definition total_is_exact_sum (w : World) (n : nat) (data : list Order) : Prop :=
  ∀ w', step w (Resolve n data) = Some w' →
        total (st w') = Finite (order_sum data).

End WithFormat.

Section WithParse.
Context `{NumberParse}.

(** The [border] of the row of [order]. *)
Definition border (s : State) (order : Order) : string :=
  if loose_eq (selectedId s) (id order) then "2px solid blue" else "none".

End WithParse.

End OrderList.

(** ** UserProfile ([src/components/UserProfile.tsx]) *)

Module UserProfile.

Record Item := {
  id : value;
  name : value;
  price : value;
  isActive : value;
}.

(** A user object; [A] is what its [items] property holds: the list itself
    in a JSON payload, a reference to the array once it is in memory. *)
Record User (A : Type) := {
  firstName : value;
  lastName : value;
  email : value;
  birthDate : value;
  status : value;
  bio : value;
  user_items : A;
}.
Arguments firstName {A}. Arguments lastName {A}. Arguments email {A}.
Arguments birthDate {A}. Arguments status {A}. Arguments bio {A}.
Arguments user_items {A}.

(** Arrays are objects: the [items] cell holds a reference, and
    [items.push] changes the array every holder of the reference sees. *)
Definition ref := nat.
Abbreviation Heap := (list (list Item)).

Definition deref (h : Heap) (r : ref) : list Item := default [] (h !! r).

(** The five [useState] cells. *)
Record State := {
  userData : option (User ref);
  loading : bool;
  items : ref;
  error : string;
  count : Z;
}.

Inductive Cont :=
| ThenUser                                  (* first effect *)
| AfterDelete (itemId : value) (captured : ref).  (* handleDelete after its await *)

(** The component never calls [setInterval]: no callback exists. *)
Inductive TimerCallback := .

Record Interval := { callback : TimerCallback; delay : Z }.

Record World := {
  st : State;
  heap : Heap;
  phase : Phase;
  shown : option State;        (* the state the last render closed over *)
  requests : list Request;
  inflight : list Cont;
  intervals : list Interval;
  alerts : list string;
  console : list (option (User ref));
  props_id : value;            (* props.id *)
}.

(** [useState([])] allocates the first array. *)
Definition initial : State :=
  {| userData := None; loading := false; items := 0; error := ""; count := 0 |}.

Definition boot (i : value) : World :=
  {| st := initial; heap := [[]]; phase := Fresh; shown := None;
     requests := []; inflight := []; intervals := []; alerts := [];
     console := []; props_id := i |}.

Definition with_st (f : State → State) (w : World) : World :=
  {| st := f (st w); heap := heap w; phase := phase w; shown := shown w;
     requests := requests w; inflight := inflight w;
     intervals := intervals w; alerts := alerts w; console := console w;
     props_id := props_id w |}.

Definition with_heap (h : Heap) (w : World) : World :=
  {| st := st w; heap := h; phase := phase w; shown := shown w;
     requests := requests w; inflight := inflight w;
     intervals := intervals w; alerts := alerts w; console := console w;
     props_id := props_id w |}.

Definition with_phase (p : Phase) (w : World) : World :=
  {| st := st w; heap := heap w; phase := p; shown := shown w;
     requests := requests w; inflight := inflight w;
     intervals := intervals w; alerts := alerts w; console := console w;
     props_id := props_id w |}.

Definition with_shown (s : option State) (w : World) : World :=
  {| st := st w; heap := heap w; phase := phase w; shown := s;
     requests := requests w; inflight := inflight w;
     intervals := intervals w; alerts := alerts w; console := console w;
     props_id := props_id w |}.

Definition setUserData (u : option (User ref)) : World → World :=
  with_st (λ s, {| userData := u; loading := loading s; items := items s;
                   error := error s; count := count s |}).

Definition setLoading (b : bool) : World → World :=
  with_st (λ s, {| userData := userData s; loading := b; items := items s;
                   error := error s; count := count s |}).

Definition setItems (r : ref) : World → World :=
  with_st (λ s, {| userData := userData s; loading := loading s; items := r;
                   error := error s; count := count s |}).

Definition setCount (n : Z) : World → World :=
  with_st (λ s, {| userData := userData s; loading := loading s;
                   items := items s; error := error s; count := n |}).

Definition fetch (m : Method) (u : string) (k : Cont) (w : World) : World :=
  {| st := st w; heap := heap w; phase := phase w; shown := shown w;
     requests := requests w ++ [{| method := m; url := u |}];
     inflight := inflight w ++ [k];
     intervals := intervals w; alerts := alerts w; console := console w;
     props_id := props_id w |}.

Definition alert (msg : string) (w : World) : World :=
  {| st := st w; heap := heap w; phase := phase w; shown := shown w;
     requests := requests w; inflight := inflight w;
     intervals := intervals w; alerts := alerts w ++ [msg];
     console := console w;
     props_id := props_id w |}.

Definition console_log (u : option (User ref)) (w : World) : World :=
  {| st := st w; heap := heap w; phase := phase w; shown := shown w;
     requests := requests w; inflight := inflight w;
     intervals := intervals w; alerts := alerts w;
     console := console w ++ [u]; props_id := props_id w |}.

(** A new array; its reference is the next free slot. *)
Definition alloc (l : list Item) (w : World) : ref * World :=
  (length (heap w), with_heap (heap w ++ [l]) w).

(** [a.push(x)] on the array behind [r]. *)
Definition push (r : ref) (x : Item) (w : World) : World :=
  with_heap (<[r := deref (heap w) r ++ [x]]> (heap w)) w.

Definition settle (n : nat) (w : World) : World :=
  {| st := st w; heap := heap w; phase := phase w; shown := shown w;
     requests := requests w; inflight := delete n (inflight w);
     intervals := intervals w; alerts := alerts w; console := console w;
     props_id := props_id w |}.

(** The requests that go to the user and item endpoints of the API. *)
Definition origin : string := "https://api.example.com".

Definition user_endpoint (r : Request) : Prop :=
  (∃ i, r = request_to origin (GetUser i))
  ∨ (∃ i, r = request_to origin (DeleteItem i)).

(** Before the mount nothing has happened; the component never holds an
    interval; and [loading] is only set while no user has arrived. *)
Record invariant (w : World) : Prop := {
  inv_fresh : phase w = Fresh → st w = initial ∧ inflight w = [];
  inv_intervals : intervals w = [];
  inv_loading : loading (st w) = true → userData (st w) = None;
}.

(** The fields [calculateAge] reads from a [Date] object. *)
Record Date := {
  getFullYear : Z;
  getMonth : Z;
  getDate : Z;
}.

(** [calculateAge] from the two dates it builds: [today] is [new Date()]
    and [birth] is [new Date(birthDate)], both taken as valid dates. *)
Definition calculateAge (today birth : Date) : Z :=
  let age := (getFullYear today - getFullYear birth)%Z in
  let m := (getMonth today - getMonth birth)%Z in
  if (m <? 0)%Z || ((m =? 0)%Z && (getDate today <? getDate birth)%Z)
  then (age - 1)%Z else age.

(** The state variables a handler or an effect body reads are those of the
    render that created it. *)
Definition closure (w : World) : State := default (st w) (shown w).

Section WithFormat.
Context `{NumberFormat}.

(** The two effects, in source order. *)
Definition fetchEffect : Effect World :=
  {| body := λ w,
       block [setLoading true;
              fetch GET ("https://api.example.com/users/" +:+ to_string (props_id w))
                    ThenUser] w;
     deps := EmptyDeps;
     cleanup := None |}.

Definition logEffect : Effect World :=
  {| body := λ w, console_log (userData (closure w)) w;
     deps := NoDeps;
     cleanup := None |}.

Definition effects : list (Effect World) := [fetchEffect; logEffect].

Definition fire (cb : TimerCallback) : World → World :=
  match cb with end.

(** The request [handleDelete] issues for [itemId]. *)
Definition delete_request (itemId : value) : Request :=
  {| method := DELETE;
     url := "https://api.example.com/items/" +:+ to_string itemId |}.

(** A [handleDelete] waiting at its [await] has issued its request. *)
Definition deletes_issued (w : World) : Prop :=
  ∀ itemId r, AfterDelete itemId r ∈ inflight w → delete_request itemId ∈ requests w.

(** [handleDelete] up to its [await]. *)
Definition handleDelete (itemId : value) (w : World) : World :=
  fetch DELETE ("https://api.example.com/items/" +:+ to_string itemId)
        (AfterDelete itemId (items (closure w))) w.

(** [items.filter((item) => item.id !== itemId)] *)
Definition keep_others (itemId : value) (l : list Item) : list Item :=
  List.filter (λ item, strict_ne (id item) itemId) l.

(** [handleDelete] after its [await]. *)
Definition handleDelete_resumed (itemId : value) (captured : ref) (w : World) : World :=
  let (r, w') := alloc (keep_others itemId (deref (heap w) captured)) w in
  setItems r w'.

(** The second [.then] of the first effect; parsing the response has put
    the array of [data.items] in memory. *)
Definition onUserLoaded (data : User (list Item)) (w : World) : World :=
  let (r, w') := alloc (user_items data) w in
  let data' :=
    {| firstName := firstName data; lastName := lastName data;
       email := email data; birthDate := birthDate data;
       status := status data; bio := bio data; user_items := r |} in
  block [setUserData (Some data'); setLoading false; setItems (user_items data')] w'.

Definition resume (k : Cont) (data : User (list Item)) : World → World :=
  match k with
  | ThenUser => onUserLoaded data
  | AfterDelete itemId captured => handleDelete_resumed itemId captured
  end.

(** [onClick] of an item row. *)
Definition onRowClick (item : Item) (w : World) : World :=
  block [setCount (count (closure w) + 1)%Z;
         alert ("clicked " +:+ to_string (name item))] w.

(** [onClick] of the button under the list; [r] is what [Math.random()]
    returned. *)
Definition onAddClick (r : Qc) (w : World) : World :=
  let newItem :=
    {| id := VNum r; name := VStr "새 아이템"; price := VNum 0%Qc;
       isActive := VBool true |} in
  block [push (items (closure w)) newItem; setItems (items (closure w))] w.

Definition getFullName (userData : option (User ref)) : value :=
  match userData with
  | Some u =>
      if truthy (firstName u) then
        if truthy (lastName u) then
          VStr (to_string (firstName u) +:+ " " +:+ to_string (lastName u))
        else firstName u
      else VStr "Unknown"
  | None => VStr "Loading..."
  end.

(** The rendered tree, reduced to the nodes that show data.  The age
    paragraph (computed from the clock) is left out. *)
Record ItemRow := {
  key : nat;
  backgroundColor : string;
  row_name : value;
  row_price : value;
}.

Record Details := {
  email_text : value;
  status_label : string;
  clicks : Z;
  dangerouslySetInnerHTML : value;
  item_count : nat;
  rows : list ItemRow;
}.

Inductive View :=
| LoadingView
| ErrorView (msg : string)
| ProfileView (heading : value) (details : option Details).

Definition renderItems (l : list Item) : list ItemRow :=
  imap (λ index item,
          {| key := index;
             backgroundColor := if truthy (isActive item) then "green" else "red";
             row_name := name item;
             row_price := price item |}) l.

Definition status_text (v : value) : string :=
  if eq_literal v "active" then "활성"
  else if eq_literal v "inactive" then "비활성"
  else if eq_literal v "banned" then "차단됨"
  else "알 수 없음".

Definition render (s : State) (h : Heap) : View :=
  if loading s then LoadingView
  else if negb (bool_decide (error s = "")) then ErrorView (error s)
  else ProfileView (getFullName (userData s))
         (u ← userData s;
          Some {| email_text := email u;
                  status_label := status_text (status u);
                  clicks := count s;
                  dangerouslySetInnerHTML := bio u;
                  item_count := length (deref h (items s));
                  rows := renderItems (deref h (items s)) |}).

(** The item rows and the button exist when the last render reached the
    details of the profile. *)
Definition controls (w : World) : bool :=
  match shown w with
  | Some c =>
      bool_decide (phase w = Live) && negb (loading c)
      && bool_decide (error c = "") && bool_decide (is_Some (userData c))
  | None => false
  end.

Inductive Event :=
| Mount
| Render
| Unmount
| Tick (n : nat)
| Resolve (n : nat) (data : User (list Item))  (* the n-th chain gets its response;
                                                  handleDelete does not read it *)
| Reject (n : nat)
| ClickRow (item : Item)
| ClickDelete (item : Item)      (* the button inside the row of [item] *)
| ClickAdd (r : Qc).

Definition live (w : World) : bool := bool_decide (phase w = Live).

Definition step (w : World) (e : Event) : option World :=
  match e with
  | Mount =>
      if bool_decide (phase w = Fresh)
      then Some (commit_mount effects (with_shown (Some (st w)) (with_phase Live w)))
      else None
  | Render =>
      if live w
      then Some (commit_update effects (with_shown (Some (st w)) w))
      else None
  | Unmount =>
      if live w
      then Some (with_shown None (with_phase Gone (commit_unmount effects w)))
      else None
  | Tick n =>
      cb ← callback <$> intervals w !! n; Some (fire cb w)
  | Resolve n data =>
      k ← inflight w !! n; Some (resume k data (settle n w))
  | Reject n =>
      _ ← inflight w !! n; Some (settle n w)
  | ClickRow item =>
      if controls w then Some (onRowClick item w) else None
  | ClickDelete item =>
      (* the click bubbles from the button to the row *)
      if controls w
      then Some (block [handleDelete (id item); onRowClick item] w)
      else None
  | ClickAdd r =>
      if controls w && bool_decide (0 ≤ r)%Qc && bool_decide (r < 1)%Qc
      then Some (onAddClick r w)
      else None
  end.

Fixpoint run (w : World) (es : list Event) : option World :=
  match es with
  | [] => Some w
  | e :: es' => w' ← step w e; run w' es'
  end.

Definition reachable (w : World) : Prop := ∃ i es, run (boot i) es = Some w.

(** Runs in which the fetch of the first effect does not succeed. *)
Definition fulfils_initial (w : World) (e : Event) : bool :=
  match e with
  | Resolve n _ =>
      match inflight w !! n with Some ThenUser => true | _ => false end
  | _ => false
  end.

Fixpoint run_failing (w : World) (es : list Event) : option World :=
  match es with
  | [] => Some w
  | e :: es' =>
      if fulfils_initial w e then None
      else w' ← step w e; run_failing w' es'
  end.

End WithFormat.

End UserProfile.

(** ** The two components side by side *)

Inductive Component := TheOrderList | TheUserProfile.

#[global] Instance Component_eq_dec : EqDecision Component.
Proof. solve_decision. Defined.

Section Components.
Context `{NumberFormat}.

(** A component polls when some state it can reach has an interval
    registered. *)
Definition polls (c : Component) : Prop :=
  match c with
  | TheOrderList =>
      ∃ w, OrderList.reachable w ∧ OrderList.intervals w ≠ []
  | TheUserProfile =>
      ∃ w, UserProfile.reachable w ∧ UserProfile.intervals w ≠ []
  end.

(** A component fetches on every render when each of its re-renders issues
    a request. *)
Definition fetches_on_every_render (c : Component) : Prop :=
  match c with
  | TheOrderList =>
      ∀ w, OrderList.reachable w → OrderList.phase w = Live →
        ∃ w', OrderList.step w OrderList.Render = Some w' ∧
              length (OrderList.requests w) < length (OrderList.requests w')
  | TheUserProfile =>
      ∀ w, UserProfile.reachable w → UserProfile.phase w = Live →
        ∃ w', UserProfile.step w UserProfile.Render = Some w' ∧
              length (UserProfile.requests w) < length (UserProfile.requests w')
  end.

(** The specification speaks of one component that fetches on every
    render and of another that polls. *)
Definition polling_apart_from_fetching (c1 c2 : Component) : Prop :=
  polls c1 → fetches_on_every_render c2 → c1 ≠ c2.

End Components.

(** A number format for the examples: it prints the integer part in
    decimal, which is what JavaScript prints for the small integers the
    examples use. *)
Definition integral_format : NumberFormat :=
  λ q, pretty (Qnum (this q) `div` Z.pos (Qden (this q)))%Z.

(** ** Sample data for the examples *)

Module OrderSample.
Import OrderList.

Definition order : Order :=
  {| id := VStr "o-1"; status := VStr "pending"; customerName := VStr "Kim";
     price := Q2Qc (3 # 2); quantity := Q2Qc 4; thumbnail := VStr "/thumb.png";
     memo := VStr "<img src=x onerror=alert(1)>"; items := [];
     receiptUrl := VNull |}.

(** An order known by its id alone. *)
Definition order_of (i : string) : Order :=
  {| id := VStr i; status := VUndefined; customerName := VUndefined;
     price := 0%Qc; quantity := 0%Qc; thumbnail := VUndefined;
     memo := VUndefined; items := []; receiptUrl := VUndefined |}.

Definition trace_mounted : list Event := [Mount].
Definition trace_loaded : list Event := [Mount; Resolve 0 [order; order]].
Definition trace_unmounted : list Event :=
  [Mount; Resolve 0 [order]; Render; ClickOrder (VStr "o-1"); Unmount].

(** The worlds at the end of these traces. *)
Definition mounted : World :=
  Eval vm_compute in default boot (run (H:=integral_format) boot trace_mounted).
Definition loaded : World :=
  Eval vm_compute in default boot (run (H:=integral_format) boot trace_loaded).
Definition unmounted : World :=
  Eval vm_compute in default boot (run (H:=integral_format) boot trace_unmounted).

(** Two fetches of the first effect, both rejected. *)
Definition trace_failed : list Event := [Mount; Reject 0; Render; Reject 0].
Definition failed : World :=
  Eval vm_compute in default boot (run (H:=integral_format) boot trace_failed).

(** Two orders whose amounts add up to 2^53 + 1. *)
Definition large_orders : list Order :=
  [ {| id := VStr "o-2"; status := VStr "completed"; customerName := VStr "Park";
       price := Q2Qc (inject_Z (2 ^ 53)); quantity := Q2Qc 1; thumbnail := VNull;
       memo := VStr ""; items := []; receiptUrl := VNull |};
    {| id := VStr "o-3"; status := VStr "completed"; customerName := VStr "Choi";
       price := Q2Qc 1; quantity := Q2Qc 1; thumbnail := VNull;
       memo := VStr ""; items := []; receiptUrl := VNull |} ].

(** A poll under way, and two searches under way. *)
Definition trace_polling : list Event := [Mount; Tick 0].
Definition polling : World :=
  Eval vm_compute in default boot (run (H:=integral_format) boot trace_polling).

Definition trace_searching : list Event :=
  [Mount; ChangeSearch "a"; ChangeSearch "ab"].
Definition searching : World :=
  Eval vm_compute in default boot (run (H:=integral_format) boot trace_searching).

(** An order that came without an id. *)
Definition order_without_id : Order :=
  {| id := VUndefined; status := VStr "completed"; customerName := VStr "Lee";
     price := Q2Qc 1234567; quantity := Q2Qc 1; thumbnail := VNull;
     memo := VStr ""; items := []; receiptUrl := VNull |}.

End OrderSample.

Module UserSample.
Import UserProfile.

(** A user object with no property set. *)
Definition nobody : User (list Item) :=
  {| firstName := VUndefined; lastName := VUndefined; email := VUndefined;
     birthDate := VUndefined; status := VUndefined; bio := VUndefined;
     user_items := [] |}.

(** An item known by its id alone. *)
Definition item_of (i : string) : Item :=
  {| id := VStr i; name := VUndefined; price := VUndefined;
     isActive := VUndefined |}.

(** A user object that has the one item [i]. *)
Definition owner_of (i : string) : User (list Item) :=
  {| firstName := VUndefined; lastName := VUndefined; email := VUndefined;
     birthDate := VUndefined; status := VUndefined; bio := VUndefined;
     user_items := [item_of i] |}.

Definition user : User (list Item) :=
  {| firstName := VStr "Ada"; lastName := VStr "Lee";
     email := VStr "ada@example.com"; birthDate := VStr "1990-01-01";
     status := VStr "active"; bio := VStr "<script>steal()</script>";
     user_items := [item_of "a"; item_of "b"] |}.

Definition trace_mounted : list Event := [Mount].
Definition trace_loaded : list Event := [Mount; Resolve 0 user; Render].
Definition trace_deleting : list Event :=
  [Mount; Resolve 0 user; Render; ClickDelete (item_of "a")].

(** The worlds at the end of these traces, for [props.id = "u-7"]. *)
Definition mounted : World :=
  Eval vm_compute in
    default (boot VNull) (run (H:=integral_format) (boot (VStr "u-7")) trace_mounted).
Definition loaded : World :=
  Eval vm_compute in
    default (boot VNull) (run (H:=integral_format) (boot (VStr "u-7")) trace_loaded).
Definition deleting : World :=
  Eval vm_compute in
    default (boot VNull) (run (H:=integral_format) (boot (VStr "u-7")) trace_deleting).

(** The fetch of the first effect, rejected. *)
Definition trace_failed : list Event := [Mount; Reject 0; Render].
Definition failed : World :=
  Eval vm_compute in
    default (boot VNull) (run (H:=integral_format) (boot (VStr "u-7")) trace_failed).

(** A deletion answered and no render since: the last render still shows
    the array the user came with, while [items] is the filtered one. *)
Definition trace_stale : list Event :=
  [Mount; Resolve 0 user; Render; ClickDelete (item_of "a");
   Resolve 0 nobody].
Definition stale : World :=
  Eval vm_compute in
    default (boot VNull) (run (H:=integral_format) (boot (VStr "u-7")) trace_stale).
Definition stale_render : State :=
  Eval vm_compute in default initial (shown stale).

(** Two deletions under way, both started from the render of [loaded]. *)
Definition trace_deleting_two : list Event :=
  [Mount; Resolve 0 user; Render; ClickDelete (item_of "a"); Render;
   ClickDelete (item_of "b")].
Definition deleting_two : World :=
  Eval vm_compute in
    default (boot VNull)
      (run (H:=integral_format) (boot (VStr "u-7")) trace_deleting_two).

Definition today : Date := {| getFullYear := 2024; getMonth := 4; getDate := 17 |}.
Definition born : Date := {| getFullYear := 1990; getMonth := 4; getDate := 18 |}.

(** The user object as it sits in the state of [loaded]. *)
Definition user_in_memory : User ref :=
  {| firstName := firstName user; lastName := lastName user;
     email := email user; birthDate := birthDate user;
     status := status user; bio := bio user; user_items := 1 |}.

Definition only_first_name : User ref :=
  {| firstName := VStr "Ada"; lastName := VStr ""; email := VNull;
     birthDate := VNull; status := VNull; bio := VNull; user_items := 0 |}.

Definition no_name : User ref :=
  {| firstName := VNum 0%Qc; lastName := VStr "Lee"; email := VNull;
     birthDate := VNull; status := VNull; bio := VNull; user_items := 0 |}.

End UserSample.

(** ** Descriptions used by the further properties *)

(** Texts made of decimal digits. *)
Fixpoint all_digits (s : string) : bool :=
  match s with
  | EmptyString => true
  | String c rest => OrderList.is_digit c && all_digits rest
  end.

(** The length of the longest prefix of digits. *)
Fixpoint digit_run (s : string) : nat :=
  match s with
  | EmptyString => 0
  | String c rest => if OrderList.is_digit c then S (digit_run rest) else 0
  end.

(** Grouping by thousands, as one writes it by hand: a comma follows a
    digit when the digits after it are three, six, nine, ... in number. *)
Fixpoint thousands (s : string) : string :=
  match s with
  | EmptyString => ""
  | String c rest =>
      String c
        (if (0 <? String.length rest)%nat && (String.length rest mod 3 =? 0)%nat
         then String ","%char (thousands rest) else thousands rest)
  end.

Fixpoint strip_commas (s : string) : string :=
  match s with
  | EmptyString => ""
  | String c rest =>
      if Ascii.eqb c ","%char then strip_commas rest else String c (strip_commas rest)
  end.

(** The date of the [k]-th birthday is not after [today], dates compared
    by year, then month, then day. *)
Definition birthday_reached (k : Z) (today birth : UserProfile.Date) : Prop :=
  let y := (UserProfile.getFullYear birth + k)%Z in
  (y < UserProfile.getFullYear today)%Z
  ∨ (y = UserProfile.getFullYear today
     ∧ ((UserProfile.getMonth birth < UserProfile.getMonth today)%Z
        ∨ (UserProfile.getMonth birth = UserProfile.getMonth today
           ∧ (UserProfile.getDate birth ≤ UserProfile.getDate today)%Z))).

(** A reader of numbers for the examples: unsigned decimal integers, and
    the empty text as 0, are read as JavaScript reads them; other texts
    are not read. *)
Definition digit_value (c : ascii) : Z := (Z.of_nat (nat_of_ascii c) - 48)%Z.

Fixpoint read_digits (acc : Z) (s : string) : Z :=
  match s with
  | EmptyString => acc
  | String c rest => read_digits (10 * acc + digit_value c)%Z rest
  end.

Definition integral_parse : NumberParse :=
  λ s, if all_digits s then Some (Q2Qc (inject_Z (read_digits 0 s))) else None.

(** The digits ahead call for a comma. *)
Definition due (s : string) : bool :=
  (0 <? String.length s)%nat && (String.length s mod 3 =? 0)%nat.

(** The request of the first effect of UserProfile for [props.id = i]. *)
Definition user_request `{NumberFormat} (i : value) : Request :=
  {| method := GET; url := "https://api.example.com/users/" +:+ to_string i |}.

(** The requests of one method among those issued. *)
Definition with_method (m : Method) (l : list Request) : list Request :=
  List.filter (λ r, bool_decide (method r = m)) l.

(** Every reference the component holds points into the memory. *)
Record refs_valid (w : UserProfile.World) : Prop := {
  valid_items : (UserProfile.items (UserProfile.st w) < length (UserProfile.heap w))%nat;
  valid_shown :
    ∀ c, UserProfile.shown w = Some c →
         (UserProfile.items c < length (UserProfile.heap w))%nat;
  valid_inflight :
    ∀ itemId r, UserProfile.AfterDelete itemId r ∈ UserProfile.inflight w →
                (r < length (UserProfile.heap w))%nat;
}.

(** The events of UserProfile that are renders: the mount and every
    re-render. *)
Definition is_render (e : UserProfile.Event) : bool :=
  match e with
  | UserProfile.Mount | UserProfile.Render => true
  | _ => false
  end.

(** The item the add button makes from the number [r]. *)
Definition added_item (r : Qc) : UserProfile.Item :=
  {| UserProfile.id := VNum r; UserProfile.name := VStr "새 아이템";
     UserProfile.price := VNum 0%Qc; UserProfile.isActive := VBool true |}.

(** * Properties of OrderList *)

Module OrderListSpec.
Import OrderList.

Section Generic.
Context `{NumberFormat}.

(** A property of the initial world that every step preserves holds along
    every run. *)
Lemma orders_run_preserves (P : World → Prop) :
  (∀ w e w', P w → step w e = Some w' → P w') →
  ∀ es w w', P w → run w es = Some w' → P w'.
Proof.
  intros Hstep. induction es as [|e es IH]; intros w w' HP Hrun; simpl in Hrun.
  - by simplify_eq.
  - destruct (step w e) as [w1|] eqn:E; simpl in Hrun; [|done].
    eapply IH; [|exact Hrun]. eauto.
Qed.

Lemma orders_reachable_ind' (P : World → Prop) :
  P boot →
  (∀ w e w', P w → step w e = Some w' → P w') →
  ∀ w, reachable w → P w.
Proof. intros H0 HS w [es Hes]. eapply orders_run_preserves; eauto. Qed.

End Generic.

(** Splits a hypothesis [step w e = Some w'] into the cases of [step]. *)
Ltac orders_step_inv Hstep :=
  unfold step, live in Hstep;
  repeat case_match; simplify_option_eq;
  try match goal with |- context [fire ?c] => destruct c end;
  try match goal with |- context [resume ?k] => destruct k end.

Section Properties.
Context `{NumberFormat}.

(** C1.  For a status string, [getStatusColor] answers with the first
    branch that matches: orange for pending, green for completed, red for
    cancelled and gray for anything else; the second pending branch is
    dead, so yellow is the answer for no status at all. *)
Theorem getStatusColor_first_match :
  (∀ s : string,
     getStatusColor (VStr s) =
       if decide (s = "pending") then "orange"
       else if decide (s = "completed") then "green"
       else if decide (s = "cancelled") then "red"
       else "gray")
  ∧ (∀ status : value, getStatusColor status ≠ "yellow").
Proof.
  split.
  - intros s. unfold getStatusColor, eq_literal.
    repeat case_bool_decide; repeat case_decide; congruence.
  - intros status. unfold getStatusColor.
    destruct (eq_literal status "pending"); [done|].
    repeat case_match; done.
Qed.

(** The loop adds the remaining orders to its accumulator, once it has
    fuel for all of them. *)
Lemma total_loop_sum (data : list Order) (fuel i : nat) (t : number) :
  (length data - i ≤ fuel)%nat →
  total_loop data fuel i t = double_sum t (drop i data).
Proof.
  revert i t. induction fuel as [|fuel IH]; intros i t Hfuel; simpl.
  - by rewrite drop_ge by lia.
  - destruct (data !! i) as [o|] eqn:E.
    + rewrite IH by lia. by rewrite (drop_S _ _ _ E).
    + apply lookup_ge_None in E. by rewrite drop_ge by lia.
Qed.

Lemma compute_total_sum (data : list Order) :
  compute_total data = double_sum (Finite 0%Qc) data.
Proof.
  unfold compute_total. rewrite total_loop_sum by lia. by rewrite drop_0.
Qed.

Lemma is_double_unrounded (q : Qc) : is_double q = true → unrounded q.
Proof.
  unfold is_double, unrounded. destruct (to_double q) as [r| |]; [|done..].
  intros Hr%Qeq_bool_iff. f_equal. by apply Qc_is_canon.
Qed.

(** Where nothing is rounded, the sum of the language is the sum of
    arithmetic. *)
Lemma double_sum_exact (t : Qc) (data : list Order) :
  sums_unrounded t data →
  double_sum (Finite t) data = Finite (t + order_sum data)%Qc.
Proof.
  revert t. induction data as [|o data IH]; intros t Hex; simpl.
  - f_equal. ring.
  - destruct Hex as (Hp & Hs & Hrest).
    unfold number_mul. rewrite Hp. simpl. rewrite Hs.
    change (foldl _ ?x data) with (double_sum x data).
    rewrite (IH _ Hrest). f_equal. ring.
Qed.

(** C8, as amended.  When the chain of the first effect receives the list
    [data], the component ends with [orders] equal to [data] and [total]
    equal to the sum of [price * quantity] over [data] taken from left to
    right in double arithmetic, each product and each partial sum rounded;
    that is 0 for the empty list, the loop reaches it with any fuel of at
    least [length data], and it is the sum of exact arithmetic whenever no
    product and no partial sum is rounded. *)
Theorem initial_fetch_total (w : World) (n : nat) (data : list Order) :
  inflight w !! n = Some ThenInitial →
  ∃ w', step w (Resolve n data) = Some w'
        ∧ orders (st w') = data
        ∧ total (st w') = double_sum (Finite 0%Qc) data
        ∧ double_sum (Finite 0%Qc) [] = Finite 0%Qc
        ∧ (∀ fuel, (length data ≤ fuel)%nat →
             total_loop data fuel 0 (Finite 0%Qc) = double_sum (Finite 0%Qc) data)
        ∧ (sums_unrounded 0%Qc data → total (st w') = Finite (order_sum data)).
Proof.
  intros Hn. eexists. split; [simpl; rewrite Hn; reflexivity|].
  simpl. split; [done|]. split; [apply compute_total_sum|]. split; [done|]. split.
  - intros fuel Hfuel. rewrite total_loop_sum by lia. by rewrite drop_0.
  - intros Hex. rewrite compute_total_sum, (double_sum_exact _ _ Hex). f_equal. ring.
Qed.

(** No step writes [error] or [selectedId]. *)
Lemma orders_step_error (w w' : World) (e : Event) :
  step w e = Some w' → error (st w') = error (st w).
Proof. intros Hstep. orders_step_inv Hstep; done. Qed.

Lemma error_stays_null (w : World) : reachable w → error (st w) = VNull.
Proof.
  revert w. apply (orders_reachable_ind' (λ w, error (st w) = VNull)); [done|].
  intros w0 e w' IH Hstep. by rewrite (orders_step_error _ _ _ Hstep).
Qed.

(** Once mounted, the component holds the one interval of its second
    effect, whatever happens next. *)
Lemma step_intervals (w w' : World) (e : Event) :
  phase w ≠ Fresh → step w e = Some w' →
  phase w' ≠ Fresh ∧ intervals w' = intervals w.
Proof. intros Hphase Hstep. orders_step_inv Hstep; done. Qed.

Lemma interval_kept (es : list Event) (w : World) :
  run boot (Mount :: es) = Some w →
  phase w ≠ Fresh ∧ intervals w = [poll_interval].
Proof.
  simpl. intros Hrun.
  eapply (orders_run_preserves (λ w, phase w ≠ Fresh ∧ intervals w = [poll_interval]));
    [| |exact Hrun].
  - intros w0 e w' [Hp Hi] Hstep.
    destruct (step_intervals _ _ _ Hp Hstep) as [? ?]. split; congruence.
  - done.
Qed.

(** What a render of the live component does, and what a tick does. *)
Lemma render_step (w : World) :
  phase w = Live →
  step w Render = Some (fetch GET orders_url ThenInitial (setLoading true w)).
Proof. intros Hlive. unfold step, live. by rewrite bool_decide_eq_true_2. Qed.

Lemma tick_step (w : World) :
  intervals w = [poll_interval] →
  step w (Tick 0) = Some (fetch GET orders_url ThenPoll w).
Proof. intros Hi. simpl. by rewrite Hi. Qed.

(** C3.  The first effect has no dependency array: every render of the
    live component, not only the first, sets [loading] and issues
    [GET /orders]; a mount followed by [n] re-renders has issued it
    [n + 1] times. *)
Theorem fetch_on_every_render :
  (∀ w : World, phase w = Live →
     ∃ w', step w Render = Some w'
           ∧ loading (st w') = true
           ∧ requests w' = requests w ++ [{| method := GET; url := orders_url |}]
           ∧ inflight w' = inflight w ++ [ThenInitial])
  ∧ (∀ n : nat,
       ∃ w, run boot (Mount :: replicate n Render) = Some w
            ∧ loading (st w) = true
            ∧ requests w = replicate (S n) {| method := GET; url := orders_url |}).
Proof.
  split.
  - intros w Hlive. eexists. split; [by apply render_step|done].
  - intros n.
    assert (Hgen : ∀ m w, phase w = Live → loading (st w) = true →
              ∃ w', run w (replicate m Render) = Some w'
                    ∧ loading (st w') = true
                    ∧ requests w' = requests w
                        ++ replicate m {| method := GET; url := orders_url |}).
    { induction m as [|m IH]; intros w Hlive Hload.
      - exists w. simpl. by rewrite app_nil_r.
      - simpl. unfold live. rewrite bool_decide_eq_true_2 by done. simpl.
        edestruct (IH (commit_update effects w)) as (w' & Hrun & Hl & Hr); [done..|].
        exists w'. split; [exact Hrun|]. split; [exact Hl|].
        rewrite Hr. simpl. by rewrite <- app_assoc. }
    simpl.
    edestruct (Hgen n (commit_mount effects (with_phase Live boot))) as (w' & Hrun & Hl & Hr);
      [done..|].
    exists w'. split; [exact Hrun|]. split; [exact Hl|]. rewrite Hr. done.
Qed.

(** Every request goes to one of the three order endpoints. *)
Lemma orders_step_requests (w w' : World) (e : Event) :
  step w e = Some w' →
  requests w' = requests w
  ∨ ∃ r, requests w' = requests w ++ [r] ∧ order_endpoint r.
Proof.
  intros Hstep. orders_step_inv Hstep; try (by left); right; eexists; (split; [reflexivity|]);
    first [ by left | right; left; by eexists | right; right; by eexists ].
Qed.

Lemma orders_requests_known (w : World) :
  reachable w → ∀ r, r ∈ requests w → order_endpoint r.
Proof.
  revert w. apply (orders_reachable_ind' (λ w, ∀ r, r ∈ requests w → order_endpoint r)).
  - intros r Hr. by apply elem_of_nil in Hr.
  - intros w e w' IH Hstep r Hr.
    destruct (orders_step_requests _ _ _ Hstep) as [E|(r' & E & Hok)]; rewrite E in Hr.
    + by apply IH.
    + apply elem_of_app in Hr as [Hr|Hr]; [by apply IH|].
      apply list_elem_of_singleton in Hr. by subst.
Qed.

(** Each of the three is issued in some run. *)
Lemma get_orders_issued :
  ∃ w, reachable w ∧ request_to origin GetOrders ∈ requests w.
Proof.
  eexists. split; [exists [Mount]; reflexivity|]. apply list_elem_of_In. simpl. auto.
Qed.

Lemma delete_order_issued (i : string) :
  ∃ w, reachable w ∧ request_to origin (DeleteOrder i) ∈ requests w.
Proof.
  eexists. split.
  - exists [Mount; Resolve 0 [OrderSample.order_of i]; Render; ClickOrder (VStr i)].
    vm_compute. reflexivity.
  - apply list_elem_of_In. simpl. auto.
Qed.

Lemma search_orders_issued (q : string) :
  ∃ w, reachable w ∧ request_to origin (SearchOrders q) ∈ requests w.
Proof.
  eexists. split.
  - exists [Mount; ChangeSearch q]. reflexivity.
  - apply list_elem_of_In. simpl. auto.
Qed.

(** The raw HTML of each row is the memo of its order, untouched. *)
Lemma render_memo_at (s : State) (k : nat) (o : Order) :
  orders s !! k = Some o →
  ∃ row, rows (render s) !! k = Some row ∧ dangerouslySetInnerHTML row = memo o.
Proof.
  intros Hk. exists (render_order o). split; [|done].
  simpl. by rewrite list_lookup_fmap, Hk.
Qed.

(** While no fetch of the first effect succeeds, [loading] stays set. *)
Lemma orders_step_loading_stuck (w w' : World) (e : Event) :
  fulfils_initial w e = false → step w e = Some w' →
  phase w ≠ Fresh → loading (st w) = true →
  phase w' ≠ Fresh ∧ loading (st w') = true.
Proof.
  intros Hfail Hstep Hphase Hload. unfold fulfils_initial in Hfail.
  orders_step_inv Hstep; done.
Qed.

Lemma orders_run_failing_stuck (es : list Event) (w0 w : World) :
  phase w0 ≠ Fresh → loading (st w0) = true →
  run_failing w0 es = Some w → phase w ≠ Fresh ∧ loading (st w) = true.
Proof.
  revert w0. induction es as [|e es IH]; intros w0 Hp Hl Hrun; simpl in Hrun.
  - by simplify_eq.
  - destruct (fulfils_initial w0 e) eqn:Ef; [done|].
    destruct (step w0 e) as [w1|] eqn:Es; [|done]. simpl in Hrun.
    destruct (orders_step_loading_stuck _ _ _ Ef Es Hp Hl) as [? ?].
    by apply (IH w1).
Qed.

Lemma orders_loading_stuck (es : list Event) (w : World) :
  run_failing boot (Mount :: es) = Some w → loading (st w) = true.
Proof.
  intros Hrun. change (run_failing (commit_mount effects (with_phase Live boot)) es = Some w) in Hrun.
  apply orders_run_failing_stuck in Hrun as [_ Hl]; [exact Hl|by simpl..].
Qed.

Lemma orders_run_failing_run (es : list Event) (w0 w : World) :
  run_failing w0 es = Some w → run w0 es = Some w.
Proof.
  revert w0. induction es as [|e es IH]; intros w0 Hrun; simpl in *; [done|].
  destruct (fulfils_initial w0 e); [done|].
  destruct (step w0 e) as [w1|]; simpl in *; [|done]. by apply IH.
Qed.

End Properties.
End OrderListSpec.

(** * Properties of UserProfile *)

Module UserProfileSpec.
Import UserProfile.

Section Generic.
Context `{NumberFormat}.

Lemma profile_run_preserves (P : World → Prop) :
  (∀ w e w', P w → step w e = Some w' → P w') →
  ∀ es w w', P w → run w es = Some w' → P w'.
Proof.
  intros Hstep. induction es as [|e es IH]; intros w w' HP Hrun; simpl in Hrun.
  - by simplify_eq.
  - destruct (step w e) as [w1|] eqn:E; simpl in Hrun; [|done].
    eapply IH; [|exact Hrun]. eauto.
Qed.

Lemma profile_reachable_ind' (P : World → Prop) :
  (∀ i, P (boot i)) →
  (∀ w e w', P w → step w e = Some w' → P w') →
  ∀ w, reachable w → P w.
Proof. intros H0 HS w (i & es & Hes). eapply profile_run_preserves; eauto. Qed.

End Generic.

Ltac profile_step_inv Hstep :=
  unfold step, live in Hstep;
  repeat case_match; simplify_option_eq;
  try match goal with |- context [fire ?c] => destruct c end;
  try match goal with |- context [resume ?k] => destruct k end.

Section Properties.
Context `{NumberFormat}.

Lemma profile_step_error (w w' : World) (e : Event) :
  step w e = Some w' → error (st w') = error (st w).
Proof. intros Hstep. profile_step_inv Hstep; done. Qed.

Lemma error_stays_empty (w : World) : reachable w → error (st w) = "".
Proof.
  revert w. apply (profile_reachable_ind' (λ w, error (st w) = "")); [done|].
  intros w0 e w' IH Hstep. by rewrite (profile_step_error _ _ _ Hstep).
Qed.

Lemma render_not_error (w : World) (msg : string) :
  reachable w → render (st w) (heap w) ≠ ErrorView msg.
Proof.
  intros Hr. unfold render. rewrite (error_stays_empty _ Hr).
  destruct (loading (st w)); simpl; done.
Qed.

Lemma controls_shown (w : World) :
  controls w = true →
  phase w = Live ∧ ∃ c, shown w = Some c ∧ loading c = false ∧ error c = ""
                        ∧ is_Some (userData c).
Proof.
  unfold controls. destruct (shown w) as [c|]; [|done].
  rewrite !andb_true_iff, !bool_decide_eq_true, negb_true_iff.
  intros [[[? ?] ?] ?]. eauto 10.
Qed.

Lemma invariant_step (w w' : World) (e : Event) :
  invariant w → step w e = Some w' → invariant w'.
Proof.
  intros [Hf Hi Hl] Hstep.
  profile_step_inv Hstep; split; simpl; try done; try (intros; by auto).
  all: try (intros _; by destruct (Hf ltac:(done)) as [-> _]).
  all: intros Hfresh; try (destruct (Hf Hfresh) as [_ Hin]; rewrite Hin in *; done).
  all: repeat match goal with
       | Hc : _ && _ = true |- _ => apply andb_prop in Hc as [Hc ?]
       | Hc : controls _ = true |- _ => apply controls_shown in Hc as [Hc _]
       end; congruence.
Qed.

Lemma invariant_holds (w : World) : reachable w → invariant w.
Proof.
  revert w. apply (profile_reachable_ind' invariant).
  - intros i. by split.
  - intros w e w'. apply invariant_step.
Qed.

(** Every request goes to one of the two endpoints of the component. *)
Lemma profile_step_requests (w w' : World) (e : Event) :
  step w e = Some w' →
  requests w' = requests w
  ∨ ∃ r, requests w' = requests w ++ [r] ∧ user_endpoint r.
Proof.
  intros Hstep. profile_step_inv Hstep; try (by left); right; eexists; (split; [reflexivity|]);
    first [ left; by eexists | right; by eexists ].
Qed.

Lemma profile_requests_known (w : World) :
  reachable w → ∀ r, r ∈ requests w → user_endpoint r.
Proof.
  revert w. apply (profile_reachable_ind' (λ w, ∀ r, r ∈ requests w → user_endpoint r)).
  - intros i r Hr. by apply elem_of_nil in Hr.
  - intros w e w' IH Hstep r Hr.
    destruct (profile_step_requests _ _ _ Hstep) as [E|(r' & E & Hok)]; rewrite E in Hr.
    + by apply IH.
    + apply elem_of_app in Hr as [Hr|Hr]; [by apply IH|].
      apply list_elem_of_singleton in Hr. by subst.
Qed.

Lemma get_user_issued (i : string) :
  ∃ w, reachable w ∧ request_to origin (GetUser i) ∈ requests w.
Proof.
  eexists. split.
  - exists (VStr i), [Mount]. reflexivity.
  - apply list_elem_of_In. simpl. auto.
Qed.

Lemma delete_item_issued (i : string) :
  ∃ w, reachable w ∧ request_to origin (DeleteItem i) ∈ requests w.
Proof.
  eexists. split.
  - exists VUndefined, [Mount; Resolve 0 (UserSample.owner_of i); Render;
                        ClickDelete (UserSample.item_of i)].
    vm_compute. reflexivity.
  - apply list_elem_of_In. simpl. auto.
Qed.

(** A re-render issues no request. *)
Lemma render_no_request (w w' : World) :
  step w Render = Some w' → requests w' = requests w.
Proof. intros Hstep. by profile_step_inv Hstep. Qed.

(** Once a user object is in the state, the profile is what is rendered
    and its raw HTML is the [bio] of that object, untouched. *)
Lemma render_bio (w : World) (u : User ref) :
  reachable w → userData (st w) = Some u →
  ∃ d, render (st w) (heap w) = ProfileView (getFullName (Some u)) (Some d)
       ∧ dangerouslySetInnerHTML d = bio u.
Proof.
  intros Hr Hu. unfold render.
  destruct (loading (st w)) eqn:El.
  - apply (inv_loading _ (invariant_holds _ Hr)) in El. congruence.
  - rewrite (error_stays_empty _ Hr), Hu. simpl. eexists. split; [reflexivity|done].
Qed.

Lemma profile_step_loading_stuck (w w' : World) (e : Event) :
  fulfils_initial w e = false → step w e = Some w' →
  phase w ≠ Fresh → loading (st w) = true →
  phase w' ≠ Fresh ∧ loading (st w') = true.
Proof.
  intros Hfail Hstep Hphase Hload. unfold fulfils_initial in Hfail.
  profile_step_inv Hstep; done.
Qed.

Lemma profile_run_failing_stuck (es : list Event) (w0 w : World) :
  phase w0 ≠ Fresh → loading (st w0) = true →
  run_failing w0 es = Some w → phase w ≠ Fresh ∧ loading (st w) = true.
Proof.
  revert w0. induction es as [|e es IH]; intros w0 Hp Hl Hrun; simpl in Hrun.
  - by simplify_eq.
  - destruct (fulfils_initial w0 e) eqn:Ef; [done|].
    destruct (step w0 e) as [w1|] eqn:Es; [|done]. simpl in Hrun.
    destruct (profile_step_loading_stuck _ _ _ Ef Es Hp Hl) as [? ?].
    by apply (IH w1).
Qed.

Lemma profile_loading_stuck (i : value) (es : list Event) (w : World) :
  run_failing (boot i) (Mount :: es) = Some w → loading (st w) = true.
Proof.
  intros Hrun.
  change (run_failing (commit_mount effects
            (with_shown (Some (st (boot i))) (with_phase Live (boot i)))) es = Some w) in Hrun.
  apply profile_run_failing_stuck in Hrun as [_ Hl]; [exact Hl|by simpl..].
Qed.

Lemma profile_run_failing_run (es : list Event) (w0 w : World) :
  run_failing w0 es = Some w → run w0 es = Some w.
Proof.
  revert w0. induction es as [|e es IH]; intros w0 Hrun; simpl in *; [done|].
  destruct (fulfils_initial w0 e); [done|].
  destruct (step w0 e) as [w1|]; simpl in *; [|done]. by apply IH.
Qed.

(** C9.  [getFullName] decides on [userData] alone and covers every
    case: "Loading..." without a user, "Unknown" when [firstName] is
    falsy, [firstName] itself when only [lastName] is falsy, and
    [firstName + " " + lastName] when both are truthy. *)
Theorem getFullName_cases :
  getFullName None = VStr "Loading..."
  ∧ ∀ u : User ref,
      (falsy (firstName u) = true → getFullName (Some u) = VStr "Unknown")
      ∧ (truthy (firstName u) = true → falsy (lastName u) = true →
           getFullName (Some u) = firstName u)
      ∧ (truthy (firstName u) = true → truthy (lastName u) = true →
           getFullName (Some u)
           = VStr (to_string (firstName u) +:+ " " +:+ to_string (lastName u)))
      ∧ (falsy (firstName u) = true
         ∨ truthy (firstName u) = true ∧ falsy (lastName u) = true
         ∨ truthy (firstName u) = true ∧ truthy (lastName u) = true).
Proof.
  split; [done|]. intros u. unfold getFullName, falsy.
  destruct (truthy (firstName u)), (truthy (lastName u)); simpl;
    repeat split; try done; auto.
Qed.

Lemma deletes_issued_step (w w' : World) (e : Event) :
  deletes_issued w → step w e = Some w' → deletes_issued w'.
Proof.
  intros Hinv Hstep itemId r. unfold deletes_issued in Hinv.
  profile_step_inv Hstep; simpl; intros Hin;
    repeat match goal with
    | Hin : _ ∈ delete _ _ |- _ => apply list_elem_of_delete_inv in Hin
    | Hin : _ ∈ _ ++ [_] |- _ =>
        apply elem_of_app in Hin as [Hin|Hin];
        [|apply list_elem_of_singleton in Hin; simplify_eq]
    end;
    rewrite ?elem_of_app, ?list_elem_of_singleton; eauto.
Qed.

Lemma deletes_issued_holds (w : World) : reachable w → deletes_issued w.
Proof.
  revert w. apply (profile_reachable_ind' deletes_issued).
  - intros i itemId r Hin. by apply elem_of_nil in Hin.
  - intros w e w'. apply deletes_issued_step.
Qed.

Lemma keep_others_spec (itemId : value) (l : list Item) (x : Item) :
  x ∈ keep_others itemId l ↔ x ∈ l ∧ id x ≠ itemId.
Proof.
  unfold keep_others, strict_ne.
  rewrite !list_elem_of_In, filter_In, negb_true_iff, bool_decide_eq_false.
  done.
Qed.

Lemma deref_alloc (h : Heap) (l : list Item) : deref (h ++ [l]) (length h) = l.
Proof. unfold deref. by rewrite lookup_app_r, Nat.sub_diag by lia. Qed.

Lemma keep_others_sublist (itemId : value) (l : list Item) :
  keep_others itemId l `sublist_of` l.
Proof.
  unfold keep_others. induction l as [|x l IH]; simpl; [constructor|].
  destruct (strict_ne (id x) itemId); by constructor.
Qed.

(** C10.  [handleDelete(itemId)] first issues [DELETE /items/:itemId],
    changing no state, and waits with the [items] array of the render that
    made the handler: the array of the state [c] that the last render
    showed, whatever [items] holds by now.  That is also what a click on a
    delete button does.  When the response arrives, in whatever world [w2]
    that may be, the request is on record and [items] becomes a new array:
    the captured array filtered down, in its order, to exactly the elements
    whose [id] is not [itemId].  [userData], [loading], [error] and [count]
    stay as they are, and so do the arrays already in memory. *)
Theorem handleDelete_effect
    (w w2 : World) (c : State) (itemId : value) (r : ref) (n : nat)
    (data : User (list Item)) :
  shown w = Some c →
  reachable w2 →
  inflight w2 !! n = Some (AfterDelete itemId r) →
  (requests (handleDelete itemId w) = requests w ++ [delete_request itemId]
   ∧ inflight (handleDelete itemId w)
     = inflight w ++ [AfterDelete itemId (items c)]
   ∧ st (handleDelete itemId w) = st w
   ∧ heap (handleDelete itemId w) = heap w
   ∧ shown (handleDelete itemId w) = Some c)
  ∧ (∀ item, id item = itemId → controls w = true →
       ∃ w1, step w (ClickDelete item) = Some w1
             ∧ requests w1 = requests w ++ [delete_request itemId]
             ∧ inflight w1 = inflight w ++ [AfterDelete itemId (items c)]
             ∧ items (st w1) = items (st w)
             ∧ userData (st w1) = userData (st w)
             ∧ loading (st w1) = loading (st w)
             ∧ error (st w1) = error (st w)
             ∧ heap w1 = heap w)
  ∧ delete_request itemId ∈ requests w2
  ∧ ∃ w3, step w2 (Resolve n data) = Some w3
          ∧ deref (heap w3) (items (st w3)) = keep_others itemId (deref (heap w2) r)
          ∧ (∀ x, x ∈ deref (heap w3) (items (st w3))
                  ↔ x ∈ deref (heap w2) r ∧ id x ≠ itemId)
          ∧ deref (heap w3) (items (st w3)) `sublist_of` deref (heap w2) r
          ∧ userData (st w3) = userData (st w2)
          ∧ loading (st w3) = loading (st w2)
          ∧ error (st w3) = error (st w2)
          ∧ count (st w3) = count (st w2)
          ∧ requests w3 = requests w2
          ∧ heap w3 = heap w2 ++ [keep_others itemId (deref (heap w2) r)].
Proof.
  intros Hs Hreach Hn. split; [|split; [|split]].
  - unfold handleDelete, closure. rewrite Hs. done.
  - intros item <- Hc. eexists. split.
    { cbn -[controls handleDelete onRowClick block]. rewrite Hc. reflexivity. }
    unfold block, handleDelete, onRowClick, closure. simpl. rewrite Hs. done.
  - apply (deletes_issued_holds _ Hreach itemId r).
    by apply list_elem_of_lookup_2 with n.
  - eexists. split; [simpl; rewrite Hn; reflexivity|].
    simpl. rewrite deref_alloc. split; [done|].
    split; [apply keep_others_spec|]. split; [apply keep_others_sublist|done].
Qed.

End Properties.
End UserProfileSpec.

(** * Properties of the two components together *)

Section Claims.
Context `{NumberFormat}.

Lemma OrderList_polls : polls TheOrderList.
Proof.
  exists (commit_mount OrderList.effects (OrderList.with_phase Live OrderList.boot)).
  split; [by exists [OrderList.Mount]|done].
Qed.

Lemma UserProfile_never_polls : ¬ polls TheUserProfile.
Proof.
  intros (w & Hr & Hi). apply Hi.
  apply (UserProfile.inv_intervals _ (UserProfileSpec.invariant_holds _ Hr)).
Qed.

Lemma OrderList_fetches : fetches_on_every_render TheOrderList.
Proof.
  intros w _ Hlive. eexists. split; [by apply OrderListSpec.render_step|].
  simpl. rewrite length_app. simpl. lia.
Qed.

Lemma UserProfile_fetches_once : ¬ fetches_on_every_render TheUserProfile.
Proof.
  intros Hall.
  destruct (Hall (commit_mount UserProfile.effects
                    (UserProfile.with_shown (Some UserProfile.initial)
                       (UserProfile.with_phase Live (UserProfile.boot VUndefined)))))
    as (w' & Hstep & Hlen).
  - by exists VUndefined, [UserProfile.Mount].
  - done.
  - apply UserProfileSpec.render_no_request in Hstep. rewrite Hstep in Hlen. lia.
Qed.

(** C2, as amended.  The interval of the second effect of OrderList is
    never cancelled: the effect returns no cleanup, and in every state after
    the mount, also after the unmount, the one interval of 1000 ms is
    registered and its tick issues [GET /orders], whose response
    overwrites [orders].  The component that polls
    is OrderList, which is also the component that fetches on every render;
    UserProfile does neither. *)
Theorem interval_never_cancelled :
  cleanup OrderList.pollEffect = None
  ∧ (∀ (es : list OrderList.Event) (w : OrderList.World),
       OrderList.run OrderList.boot (OrderList.Mount :: es) = Some w →
       OrderList.intervals w = [OrderList.poll_interval]
       ∧ ∃ w', OrderList.step w (OrderList.Tick 0) = Some w'
               ∧ OrderList.requests w'
                 = OrderList.requests w
                   ++ [{| method := GET; url := OrderList.orders_url |}]
               ∧ OrderList.inflight w'
                 = OrderList.inflight w ++ [OrderList.ThenPoll])
  ∧ (∀ (w : OrderList.World) (d : list OrderList.Order),
       OrderList.orders (OrderList.st (OrderList.resume OrderList.ThenPoll d w)) = d)
  ∧ (∀ c : Component, polls c ↔ c = TheOrderList)
  ∧ (∀ c : Component, fetches_on_every_render c ↔ c = TheOrderList).
Proof.
  split; [done|]. split; [|split; [done|split]].
  - intros es w Hrun.
    destruct (OrderListSpec.interval_kept es w Hrun) as [_ Hi].
    split; [exact Hi|]. eexists. split; [by apply OrderListSpec.tick_step|done].
  - intros [|]; split; intros Hc; try done.
    + apply OrderList_polls.
    + by apply UserProfile_never_polls in Hc.
  - intros [|]; split; intros Hc; try done.
    + apply OrderList_fetches.
    + by apply UserProfile_fetches_once in Hc.
Qed.

(** C4.  No run of either component writes [error]: in every reachable
    state OrderList has it at [null] and UserProfile at the empty string, so
    UserProfile never renders its error branch. *)
Theorem error_never_set :
  (∀ w : OrderList.World,
     OrderList.reachable w → OrderList.error (OrderList.st w) = VNull)
  ∧ (∀ w : UserProfile.World,
       UserProfile.reachable w →
       UserProfile.error (UserProfile.st w) = ""
       ∧ ∀ msg, UserProfile.render (UserProfile.st w) (UserProfile.heap w)
                ≠ UserProfile.ErrorView msg).
Proof.
  split.
  - apply OrderListSpec.error_stays_null.
  - intros w Hr. split.
    + by apply UserProfileSpec.error_stays_empty.
    + intros msg. by apply UserProfileSpec.render_not_error.
Qed.

(** C5.  No promise chain handles a rejection.  A request in flight may
    fail, and then its chain is dropped while the state of the component
    stays as it was.  The first effect sets [loading] before it fetches, so
    as long as no fetch of that effect succeeds [loading] stays set, and
    [error] holds no message. *)
Theorem rejections_unhandled :
  (∀ (w : OrderList.World) (n : nat) (k : OrderList.Cont),
     OrderList.inflight w !! n = Some k →
     ∃ w', OrderList.step w (OrderList.Reject n) = Some w'
           ∧ OrderList.st w' = OrderList.st w
           ∧ OrderList.inflight w' = delete n (OrderList.inflight w))
  ∧ (∀ (w : UserProfile.World) (n : nat) (k : UserProfile.Cont),
       UserProfile.inflight w !! n = Some k →
       ∃ w', UserProfile.step w (UserProfile.Reject n) = Some w'
             ∧ UserProfile.st w' = UserProfile.st w
             ∧ UserProfile.heap w' = UserProfile.heap w
             ∧ UserProfile.inflight w' = delete n (UserProfile.inflight w))
  ∧ (∀ (es : list OrderList.Event) (w : OrderList.World),
       OrderList.run_failing OrderList.boot (OrderList.Mount :: es) = Some w →
       OrderList.loading (OrderList.st w) = true
       ∧ OrderList.error (OrderList.st w) = VNull)
  ∧ (∀ (i : value) (es : list UserProfile.Event) (w : UserProfile.World),
       UserProfile.run_failing (UserProfile.boot i) (UserProfile.Mount :: es) = Some w →
       UserProfile.loading (UserProfile.st w) = true
       ∧ UserProfile.error (UserProfile.st w) = "").
Proof.
  split; [|split; [|split]].
  - intros w n k Hk. eexists. split; [simpl; rewrite Hk; reflexivity|done].
  - intros w n k Hk. eexists. split; [simpl; rewrite Hk; reflexivity|done].
  - intros es w Hrun. split.
    + by apply OrderListSpec.orders_loading_stuck with es.
    + apply OrderListSpec.error_stays_null.
      eexists. by apply OrderListSpec.orders_run_failing_run.
  - intros i es w Hrun. split.
    + by apply UserProfileSpec.profile_loading_stuck with i es.
    + apply UserProfileSpec.error_stays_empty.
      eexists _, _. by apply UserProfileSpec.profile_run_failing_run.
Qed.

(** C6.  Every request either component ever issues goes to one of the
    five endpoints: OrderList to [GET /orders], [DELETE /orders/:id] or
    [GET /orders/search], UserProfile to [GET /users/:id] or
    [DELETE /items/:id]; and each of the five is issued in some run. *)
Theorem requests_target_the_api :
  (∀ (w : OrderList.World) (r : Request),
     OrderList.reachable w → r ∈ OrderList.requests w →
     r = request_to OrderList.origin GetOrders
     ∨ (∃ i, r = request_to OrderList.origin (DeleteOrder i))
     ∨ (∃ q, r = request_to OrderList.origin (SearchOrders q)))
  ∧ (∀ (w : UserProfile.World) (r : Request),
       UserProfile.reachable w → r ∈ UserProfile.requests w →
       (∃ i, r = request_to UserProfile.origin (GetUser i))
       ∨ (∃ i, r = request_to UserProfile.origin (DeleteItem i)))
  ∧ (∀ e : Endpoint,
       match e with
       | GetOrders | DeleteOrder _ | SearchOrders _ =>
           ∃ w, OrderList.reachable w
                ∧ request_to OrderList.origin e ∈ OrderList.requests w
       | GetUser _ | DeleteItem _ =>
           ∃ w, UserProfile.reachable w
                ∧ request_to UserProfile.origin e ∈ UserProfile.requests w
       end).
Proof.
  split; [|split].
  - intros w r Hr Hin. by apply (OrderListSpec.orders_requests_known w Hr).
  - intros w r Hr Hin. by apply (UserProfileSpec.profile_requests_known w Hr).
  - intros [|i|q|i|i].
    + apply OrderListSpec.get_orders_issued.
    + apply OrderListSpec.delete_order_issued.
    + apply OrderListSpec.search_orders_issued.
    + apply UserProfileSpec.get_user_issued.
    + apply UserProfileSpec.delete_item_issued.
Qed.

(** C7.  Both components hand network data to [dangerouslySetInnerHTML] as
    it came.  In UserProfile, once a user object is in the state, the
    rendered profile carries [userData.bio] itself as raw HTML; in
    OrderList the row of every order carries [order.memo] itself.  This
    holds for every value of the field, so for every string. *)
Theorem raw_html_is_unescaped :
  (∀ (w : UserProfile.World) (u : UserProfile.User UserProfile.ref),
     UserProfile.reachable w →
     UserProfile.userData (UserProfile.st w) = Some u →
     ∃ d, UserProfile.render (UserProfile.st w) (UserProfile.heap w)
          = UserProfile.ProfileView (UserProfile.getFullName (Some u)) (Some d)
          ∧ UserProfile.dangerouslySetInnerHTML d = UserProfile.bio u)
  ∧ (∀ (s : OrderList.State) (k : nat) (o : OrderList.Order),
       OrderList.orders s !! k = Some o →
       ∃ row, OrderList.rows (OrderList.render s) !! k = Some row
              ∧ OrderList.dangerouslySetInnerHTML row = OrderList.memo o)
  ∧ (∀ s : OrderList.State,
       length (OrderList.rows (OrderList.render s)) = length (OrderList.orders s)).
Proof.
  split; [|split].
  - intros w u Hr Hu. by apply UserProfileSpec.render_bio.
  - intros s k o Hk. by apply OrderListSpec.render_memo_at.
  - intros s. simpl. by rewrite length_fmap.
Qed.

End Claims.

(** * The properties at sample inputs *)

Section Samples.
#[local] Existing Instance integral_format.

Example status_colours :
  OrderList.getStatusColor <$> [VStr "pending"; VStr "completed"; VStr "cancelled";
                                VStr "Pending"; VNull]
  = ["orange"; "green"; "red"; "gray"; "gray"].
Proof. reflexivity. Qed.

(** A mount and two re-renders: three fetches of the list, none of them
    answered yet. *)
Example three_fetches :
  OrderList.requests
    <$> OrderList.run OrderList.boot [OrderList.Mount; OrderList.Render; OrderList.Render]
  = Some (replicate 3 {| method := GET; url := "http://api.example.com/orders" |}).
Proof. vm_compute. reflexivity. Qed.

(** The delete button sits inside the row, so its click also counts as a
    click on the row. *)
Example delete_click_bubbles :
  (λ w, UserProfile.count (UserProfile.st w))
    <$> UserProfile.run (UserProfile.boot (VStr "u-7")) UserSample.trace_deleting
  = Some 1%Z.
Proof. vm_compute. reflexivity. Qed.

(** An item pushed between the click on a delete button and the response
    is in the array the handler filters: the handler holds the array, not a
    copy of it. *)
Example push_seen_by_pending_delete :
  (λ w, UserProfile.id <$> UserProfile.deref (UserProfile.heap w)
                             (UserProfile.items (UserProfile.st w)))
    <$> UserProfile.run (UserProfile.boot (VStr "u-7"))
          (UserSample.trace_deleting
             ++ [UserProfile.ClickAdd (Q2Qc (1 # 2));
                 UserProfile.Resolve 0 UserSample.nobody])
  = Some [VStr "b"; VNum (Q2Qc (1 # 2))].
Proof. vm_compute. reflexivity. Qed.

(** C2 as the specification has it fails: OrderList polls and OrderList
    fetches on every render, so the two are not apart. *)
Lemma polling_component_is_fetching_component :
  ¬ polling_apart_from_fetching TheOrderList TheOrderList.
Proof.
  intros Hapart. apply Hapart; [apply OrderList_polls|apply OrderList_fetches|done].
Qed.

(** The interval survives the unmount of the sample run and still ticks. *)
Lemma interval_never_cancelled_witness :
  OrderList.run OrderList.boot
    (OrderList.Mount
     :: [OrderList.Resolve 0 [OrderSample.order]; OrderList.Render;
         OrderList.ClickOrder (VStr "o-1"); OrderList.Unmount])
  = Some OrderSample.unmounted
  ∧ OrderList.phase OrderSample.unmounted = Gone
  ∧ OrderList.intervals OrderSample.unmounted = [OrderList.poll_interval]
  ∧ ∃ w', OrderList.step OrderSample.unmounted (OrderList.Tick 0) = Some w'
          ∧ OrderList.requests w'
            = OrderList.requests OrderSample.unmounted
              ++ [{| method := GET; url := OrderList.orders_url |}]
          ∧ OrderList.inflight w'
            = OrderList.inflight OrderSample.unmounted ++ [OrderList.ThenPoll].
Proof.
  assert (Hrun : OrderList.run OrderList.boot
                   (OrderList.Mount
     :: [OrderList.Resolve 0 [OrderSample.order]; OrderList.Render;
         OrderList.ClickOrder (VStr "o-1"); OrderList.Unmount])
                 = Some OrderSample.unmounted) by (vm_compute; reflexivity).
  split; [exact Hrun|]. split; [reflexivity|].
  exact (proj1 (proj2 interval_never_cancelled) _ _ Hrun).
Defined.

Lemma fetch_on_every_render_witness :
  OrderList.phase OrderSample.loaded = Live
  ∧ ∃ w', OrderList.step OrderSample.loaded OrderList.Render = Some w'
          ∧ OrderList.loading (OrderList.st w') = true
          ∧ OrderList.requests w'
            = OrderList.requests OrderSample.loaded
              ++ [{| method := GET; url := OrderList.orders_url |}]
          ∧ OrderList.inflight w' = OrderList.inflight OrderSample.loaded
                                     ++ [OrderList.ThenInitial].
Proof.
  split; [reflexivity|].
  apply (proj1 OrderListSpec.fetch_on_every_render). reflexivity.
Defined.

Lemma error_never_set_witness :
  OrderList.reachable OrderSample.loaded
  ∧ UserProfile.reachable UserSample.loaded
  ∧ OrderList.error (OrderList.st OrderSample.loaded) = VNull
  ∧ UserProfile.error (UserProfile.st UserSample.loaded) = ""
  ∧ ∀ msg, UserProfile.render (UserProfile.st UserSample.loaded)
             (UserProfile.heap UserSample.loaded)
           ≠ UserProfile.ErrorView msg.
Proof.
  assert (Ho : OrderList.reachable OrderSample.loaded)
    by (exists OrderSample.trace_loaded; vm_compute; reflexivity).
  assert (Hu : UserProfile.reachable UserSample.loaded)
    by (exists (VStr "u-7"), UserSample.trace_loaded; vm_compute; reflexivity).
  split; [exact Ho|]. split; [exact Hu|]. split.
  - exact (proj1 error_never_set _ Ho).
  - exact (proj2 error_never_set _ Hu).
Defined.

Lemma rejections_unhandled_witness :
  OrderList.inflight OrderSample.mounted !! 0 = Some OrderList.ThenInitial
  ∧ UserProfile.inflight UserSample.mounted !! 0 = Some UserProfile.ThenUser
  ∧ (∃ w', OrderList.step OrderSample.mounted (OrderList.Reject 0) = Some w'
           ∧ OrderList.st w' = OrderList.st OrderSample.mounted
           ∧ OrderList.inflight w' = delete 0 (OrderList.inflight OrderSample.mounted))
  ∧ (∃ w', UserProfile.step UserSample.mounted (UserProfile.Reject 0) = Some w'
           ∧ UserProfile.st w' = UserProfile.st UserSample.mounted
           ∧ UserProfile.heap w' = UserProfile.heap UserSample.mounted
           ∧ UserProfile.inflight w' = delete 0 (UserProfile.inflight UserSample.mounted))
  ∧ OrderList.run_failing OrderList.boot
      (OrderList.Mount :: [OrderList.Reject 0; OrderList.Render; OrderList.Reject 0])
    = Some OrderSample.failed
  ∧ UserProfile.run_failing (UserProfile.boot (VStr "u-7"))
      (UserProfile.Mount :: [UserProfile.Reject 0; UserProfile.Render])
    = Some UserSample.failed
  ∧ (OrderList.loading (OrderList.st OrderSample.failed) = true
     ∧ OrderList.error (OrderList.st OrderSample.failed) = VNull)
  ∧ (UserProfile.loading (UserProfile.st UserSample.failed) = true
     ∧ UserProfile.error (UserProfile.st UserSample.failed) = "").
Proof.
  destruct rejections_unhandled as (Ho & Hu & Hlo & Hlu).
  assert (Hro : OrderList.run_failing OrderList.boot
                  (OrderList.Mount :: [OrderList.Reject 0; OrderList.Render; OrderList.Reject 0])
                = Some OrderSample.failed) by (vm_compute; reflexivity).
  assert (Hru : UserProfile.run_failing (UserProfile.boot (VStr "u-7"))
                  (UserProfile.Mount :: [UserProfile.Reject 0; UserProfile.Render])
                = Some UserSample.failed) by (vm_compute; reflexivity).
  split; [reflexivity|]. split; [reflexivity|].
  split; [apply (Ho _ 0%nat OrderList.ThenInitial); reflexivity|].
  split; [apply (Hu _ 0%nat UserProfile.ThenUser); reflexivity|].
  split; [exact Hro|]. split; [exact Hru|].
  split; [exact (Hlo _ _ Hro)|exact (Hlu _ _ _ Hru)].
Defined.

Lemma requests_target_the_api_witness :
  OrderList.reachable OrderSample.unmounted
  ∧ {| method := DELETE; url := "http://api.example.com/orders/o-1" |}
    ∈ OrderList.requests OrderSample.unmounted
  ∧ UserProfile.reachable UserSample.deleting
  ∧ {| method := DELETE; url := "https://api.example.com/items/a" |}
    ∈ UserProfile.requests UserSample.deleting
  ∧ OrderList.order_endpoint
      {| method := DELETE; url := "http://api.example.com/orders/o-1" |}
  ∧ UserProfile.user_endpoint
      {| method := DELETE; url := "https://api.example.com/items/a" |}.
Proof.
  assert (Ho : OrderList.reachable OrderSample.unmounted)
    by (exists OrderSample.trace_unmounted; vm_compute; reflexivity).
  assert (Hu : UserProfile.reachable UserSample.deleting)
    by (exists (VStr "u-7"), UserSample.trace_deleting; vm_compute; reflexivity).
  assert (Hio : {| method := DELETE; url := "http://api.example.com/orders/o-1" |}
                ∈ OrderList.requests OrderSample.unmounted)
    by (apply list_elem_of_In; simpl; auto).
  assert (Hiu : {| method := DELETE; url := "https://api.example.com/items/a" |}
                ∈ UserProfile.requests UserSample.deleting)
    by (apply list_elem_of_In; simpl; auto).
  destruct requests_target_the_api as (Hko & Hku & _).
  split; [exact Ho|]. split; [exact Hio|]. split; [exact Hu|]. split; [exact Hiu|].
  split; [exact (Hko _ _ Ho Hio)|exact (Hku _ _ Hu Hiu)].
Defined.

Lemma raw_html_is_unescaped_witness :
  UserProfile.reachable UserSample.loaded
  ∧ UserProfile.userData (UserProfile.st UserSample.loaded)
    = Some UserSample.user_in_memory
  ∧ OrderList.orders (OrderList.st OrderSample.loaded) !! 1 = Some OrderSample.order
  ∧ (∃ d, UserProfile.render (UserProfile.st UserSample.loaded)
            (UserProfile.heap UserSample.loaded)
          = UserProfile.ProfileView
              (UserProfile.getFullName (Some UserSample.user_in_memory)) (Some d)
          ∧ UserProfile.dangerouslySetInnerHTML d = VStr "<script>steal()</script>")
  ∧ (∃ row, OrderList.rows (OrderList.render (OrderList.st OrderSample.loaded)) !! 1
            = Some row
            ∧ OrderList.dangerouslySetInnerHTML row
              = VStr "<img src=x onerror=alert(1)>").
Proof.
  assert (Hu : UserProfile.reachable UserSample.loaded)
    by (exists (VStr "u-7"), UserSample.trace_loaded; vm_compute; reflexivity).
  destruct raw_html_is_unescaped as (Hbio & Hmemo & _).
  split; [exact Hu|]. split; [reflexivity|]. split; [reflexivity|]. split.
  - exact (Hbio UserSample.loaded UserSample.user_in_memory Hu eq_refl).
  - exact (Hmemo (OrderList.st OrderSample.loaded) 1%nat OrderSample.order eq_refl).
Defined.

(** C8 as the specification has it fails: for the prices 2^53 and 1, one
    piece each, the exact sum is 2^53 + 1, which is no double; the loop
    stores 2^53. *)
Lemma total_is_not_the_exact_sum :
  ¬ OrderList.total_is_exact_sum OrderSample.mounted 0 OrderSample.large_orders.
Proof.
  intros Hexact.
  specialize (Hexact _ eq_refl). vm_compute in Hexact.
  injection Hexact as Hq. discriminate Hq.
Qed.

Lemma initial_fetch_total_witness :
  OrderList.inflight OrderSample.mounted !! 0 = Some OrderList.ThenInitial
  ∧ OrderList.sums_unrounded 0%Qc [OrderSample.order; OrderSample.order]
  ∧ ∃ w', OrderList.step OrderSample.mounted
            (OrderList.Resolve 0 [OrderSample.order; OrderSample.order]) = Some w'
          ∧ OrderList.orders (OrderList.st w') = [OrderSample.order; OrderSample.order]
          ∧ OrderList.total (OrderList.st w') = Finite (Q2Qc 12).
Proof.
  assert (Hex : OrderList.sums_unrounded 0%Qc [OrderSample.order; OrderSample.order]).
  { repeat split; apply OrderListSpec.is_double_unrounded; vm_compute; reflexivity. }
  split; [reflexivity|]. split; [exact Hex|].
  destruct (OrderListSpec.initial_fetch_total OrderSample.mounted 0
              [OrderSample.order; OrderSample.order] eq_refl)
    as (w' & Hstep & Horders & _ & _ & _ & Htotal).
  exists w'. split; [exact Hstep|]. split; [exact Horders|].
  rewrite (Htotal Hex). apply (f_equal Finite).
  apply Qc_is_canon. vm_compute. reflexivity.
Defined.

Lemma getFullName_cases_witness :
  falsy (UserProfile.firstName UserSample.no_name) = true
  ∧ truthy (UserProfile.firstName UserSample.only_first_name) = true
  ∧ falsy (UserProfile.lastName UserSample.only_first_name) = true
  ∧ truthy (UserProfile.firstName UserSample.user_in_memory) = true
  ∧ truthy (UserProfile.lastName UserSample.user_in_memory) = true
  ∧ UserProfile.getFullName (Some UserSample.no_name) = VStr "Unknown"
  ∧ UserProfile.getFullName (Some UserSample.only_first_name) = VStr "Ada"
  ∧ UserProfile.getFullName (Some UserSample.user_in_memory) = VStr "Ada Lee".
Proof.
  destruct UserProfileSpec.getFullName_cases as [_ Hcases].
  do 5 (split; [vm_compute; reflexivity|]).
  split; [|split].
  - apply (Hcases UserSample.no_name). vm_compute; reflexivity.
  - apply (Hcases UserSample.only_first_name); vm_compute; reflexivity.
  - apply (Hcases UserSample.user_in_memory); vm_compute; reflexivity.
Defined.

Lemma handleDelete_effect_witness :
  UserProfile.shown UserSample.stale = Some UserSample.stale_render
  ∧ UserProfile.items UserSample.stale_render = 1%nat
  ∧ UserProfile.items (UserProfile.st UserSample.stale) = 2%nat
  ∧ UserProfile.reachable UserSample.deleting
  ∧ UserProfile.inflight UserSample.deleting !! 0
    = Some (UserProfile.AfterDelete (VStr "a") 1)
  ∧ UserProfile.inflight (UserProfile.handleDelete (VStr "a") UserSample.stale)
    = [UserProfile.AfterDelete (VStr "a") 1]
  ∧ UserProfile.requests (UserProfile.handleDelete (VStr "a") UserSample.stale)
    = UserProfile.requests UserSample.stale
      ++ [{| method := DELETE; url := "https://api.example.com/items/a" |}]
  ∧ ∃ w3, UserProfile.step UserSample.deleting (UserProfile.Resolve 0 UserSample.nobody)
          = Some w3
          ∧ UserProfile.deref (UserProfile.heap w3) (UserProfile.items (UserProfile.st w3))
            = [UserSample.item_of "b"]
          ∧ UserProfile.userData (UserProfile.st w3)
            = UserProfile.userData (UserProfile.st UserSample.deleting)
          ∧ UserProfile.count (UserProfile.st w3)
            = UserProfile.count (UserProfile.st UserSample.deleting).
Proof.
  assert (Hu : UserProfile.reachable UserSample.deleting)
    by (exists (VStr "u-7"), UserSample.trace_deleting; vm_compute; reflexivity).
  assert (Hs : UserProfile.shown UserSample.stale = Some UserSample.stale_render)
    by reflexivity.
  destruct (UserProfileSpec.handleDelete_effect UserSample.stale UserSample.deleting
              UserSample.stale_render (VStr "a") 1 0 UserSample.nobody Hs Hu eq_refl)
    as ((Hreq & Hin & _) & _ & _ & w3 & Hstep & Hitems & _ & _ & Hdata & _ & _ & Hcount & _).
  split; [exact Hs|]. split; [reflexivity|]. split; [reflexivity|].
  split; [exact Hu|]. split; [reflexivity|].
  split; [exact Hin|]. split; [exact Hreq|].
  exists w3. split; [exact Hstep|]. split; [|split; [exact Hdata|exact Hcount]].
  rewrite Hitems. vm_compute. reflexivity.
Defined.

End Samples.

(** * Further properties of OrderList *)

Module OrderListMore.
Import OrderList.

(** ** [formatPrice] *)

Lemma digit_is_word (c : ascii) : is_digit c = true → is_word c = true.
Proof. unfold is_word. by intros ->. Qed.

Lemma digit_run_all (s : string) : all_digits s = true → digit_run s = String.length s.
Proof.
  induction s as [|c s IH]; simpl; [done|].
  intros [Hc Hs]%andb_prop. rewrite Hc. by rewrite IH.
Qed.

Lemma starts_with_digit_run (s : string) : starts_with_digit s = (0 <? digit_run s)%nat.
Proof. destruct s as [|c s]; simpl; [done|]. by destruct (is_digit c). Qed.

(** The lookahead succeeds exactly when the digits ahead are three, six,
    nine, ... in number. *)
Lemma lookahead_run (s : string) :
  lookahead s = (0 <? digit_run s)%nat && (digit_run s mod 3 =? 0)%nat.
Proof.
  remember (String.length s) as n eqn:Hn.
  revert s Hn. induction n as [n IH] using lt_wf_ind. intros s Hn.
  destruct s as [|a [|b [|c rest]]]; cbn -[Nat.modulo Nat.eqb Nat.ltb].
  - done.
  - by destruct (is_digit a).
  - by destruct (is_digit a), (is_digit b).
  - destruct (is_digit a), (is_digit b), (is_digit c);
      cbn -[Nat.modulo Nat.eqb Nat.ltb]; try done.
    rewrite (IH (String.length rest)) by (simpl in Hn; lia || done).
    rewrite starts_with_digit_run.
    replace (S (S (S (digit_run rest)))) with (digit_run rest + 1 * 3)%nat by lia.
    rewrite Nat.Div0.mod_add.
    destruct (digit_run rest) as [|r]; [done|].
    replace (0 <? S r + 1 * 3)%nat with true by (symmetry; apply Nat.ltb_lt; lia).
    replace (0 <? S r)%nat with true by (symmetry; apply Nat.ltb_lt; lia).
    done.
Qed.

Lemma digit_run_app (a : string) (c : ascii) (b : string) :
  all_digits a = true → is_digit c = false →
  digit_run (a +:+ String c b) = digit_run a.
Proof.
  intros Ha Hc. induction a as [|x a IH]; simpl in *.
  - by rewrite Hc.
  - apply andb_prop in Ha as [Hx Ha]. rewrite Hx. by rewrite IH.
Qed.

Lemma separate_after_digit (d : ascii) (s : string) :
  is_digit d = true → all_digits s = true →
  separate (Some d) s = if due s then String ","%char (thousands s) else thousands s.
Proof.
  revert d. induction s as [|c s IH]; intros d Hd Hs.
  - simpl. by rewrite andb_false_r.
  - pose proof Hs as Hall. simpl in Hs. apply andb_prop in Hs as [Hc Hs].
    cbn [separate]. rewrite (IH c Hc Hs).
    rewrite lookahead_run, (digit_run_all _ Hall).
    unfold not_boundary. simpl from_option.
    rewrite (digit_is_word _ Hd), (digit_is_word _ Hc).
    rewrite bool_decide_eq_true_2 by done. simpl andb at 1.
    unfold due. simpl thousands. done.
Qed.

Lemma separate_digits (s : string) :
  all_digits s = true → separate None s = thousands s.
Proof.
  destruct s as [|c s]; [done|]. intros Hs.
  simpl in Hs. apply andb_prop in Hs as [Hc Hs].
  cbn [separate]. unfold not_boundary. simpl from_option.
  rewrite (digit_is_word _ Hc). rewrite bool_decide_eq_false_2 by done.
  simpl andb. rewrite (separate_after_digit c s Hc Hs). done.
Qed.

Lemma thousands_length (s : string) :
  String.length (thousands s)
  = (String.length s + (String.length s - 1) / 3)%nat.
Proof.
  induction s as [|c s IH]; [done|].
  cbn [thousands String.length].
  set (n := String.length s) in *.
  pose proof (Nat.div_mod_eq n 3) as Hn.
  pose proof (Nat.div_mod_eq (n - 1) 3) as Hp.
  pose proof (Nat.mod_upper_bound n 3 ltac:(lia)) as Hnb.
  pose proof (Nat.mod_upper_bound (n - 1) 3 ltac:(lia)) as Hpb.
  replace (S n - 1)%nat with n by lia.
  destruct ((0 <? n)%nat && (n mod 3 =? 0)%nat) eqn:E;
    cbn [String.length]; rewrite IH.
  - apply andb_prop in E as [E1%Nat.ltb_lt E2%Nat.eqb_eq]. lia.
  - apply andb_false_iff in E as [E%Nat.ltb_ge|E%Nat.eqb_neq]; lia.
Qed.

Lemma separate_no_digit (prev : option ascii) (c : ascii) (b : string) :
  is_digit c = false →
  separate prev (String c b) = String c (separate (Some c) b).
Proof.
  intros Hc. cbn [separate]. rewrite lookahead_run. simpl digit_run. rewrite Hc.
  by rewrite andb_false_r.
Qed.

(** Digits before a character that is no digit are grouped as if the text
    ended there. *)
Lemma separate_split (prev : option ascii) (a : string) (c : ascii) (b : string) :
  all_digits a = true → is_digit c = false →
  separate prev (a +:+ String c b) = separate prev a +:+ String c (separate (Some c) b).
Proof.
  intros Ha Hc. revert prev. induction a as [|x a IH]; intros prev.
  - change ("" +:+ String c b) with (String c b).
    rewrite (separate_no_digit _ _ _ Hc).
    cbn [separate lookahead]. by rewrite andb_false_r.
  - pose proof Ha as Hall. simpl in Ha. apply andb_prop in Ha as [Hx Ha].
    change (String x a +:+ String c b) with (String x (a +:+ String c b)).
    cbn [separate]. rewrite (IH Ha).
    rewrite !lookahead_run.
    change (String x (a +:+ String c b)) with (String x a +:+ String c b).
    rewrite (digit_run_app _ _ _ Hall Hc).
    unfold not_boundary.
    by destruct (bool_decide _ && _).
Qed.

Lemma separate_after_no_word (c : ascii) (s : string) :
  is_word c = false → separate (Some c) s = separate None s.
Proof. intros Hc. destruct s; cbn [separate]; unfold not_boundary; simpl; by rewrite Hc. Qed.

Lemma strip_commas_separate (prev : option ascii) (s : string) :
  strip_commas (separate prev s) = strip_commas s.
Proof.
  revert prev. induction s as [|c s IH]; intros prev; cbn [separate].
  - rewrite andb_false_r. done.
  - destruct (not_boundary prev (String c s) && lookahead (String c s));
      cbn [strip_commas]; simpl Ascii.eqb; by rewrite IH.
Qed.

Lemma strip_commas_app (a b : string) :
  strip_commas (a +:+ b) = strip_commas a +:+ strip_commas b.
Proof.
  induction a as [|c a IH]; [done|]. simpl.
  destruct (Ascii.eqb c ","); simpl; by rewrite IH.
Qed.

Section WithFormat.
Context `{NumberFormat}.

(** X1.  A price whose text is all digits is grouped by thousands from the
    right: a comma follows a digit exactly when three, six, nine, ...
    digits remain; for [n] digits that makes [(n - 1) / 3] commas, and the
    won sign ends the text. *)
Theorem formatPrice_groups_thousands (price : Qc) :
  all_digits (number_to_string price) = true →
  formatPrice price = thousands (number_to_string price) +:+ "원"
  ∧ String.length (thousands (number_to_string price))
    = (String.length (number_to_string price)
       + (String.length (number_to_string price) - 1) / 3)%nat.
Proof.
  intros Hd. split; [|apply thousands_length].
  unfold formatPrice. by rewrite separate_digits.
Qed.

(** X3.  Formatting only adds commas: with the commas taken out, the text
    of a price is the text of the number followed by the won sign. *)
Theorem formatPrice_adds_only_commas (price : Qc) :
  strip_commas (formatPrice price) = strip_commas (number_to_string price) +:+ "원".
Proof.
  unfold formatPrice. rewrite strip_commas_app, strip_commas_separate. done.
Qed.

End WithFormat.

(** X2.  The replacement of [formatPrice] does not stop at a decimal
    point: the digits after it are grouped like those before it.  A minus
    sign is kept in front and never followed by a comma. *)
Theorem separate_fraction_and_sign (a b : string) :
  all_digits a = true → all_digits b = true →
  separate None (a +:+ "." +:+ b) = thousands a +:+ "." +:+ thousands b
  ∧ separate None ("-" +:+ a) = "-" +:+ thousands a.
Proof.
  intros Ha Hb. split.
  - change ("." +:+ b) with (String "."%char b).
    rewrite (separate_split None a "."%char b Ha eq_refl).
    rewrite (separate_after_no_word "."%char b eq_refl).
    by rewrite !separate_digits.
  - change ("-" +:+ a) with (String "-"%char a).
    rewrite (separate_no_digit None "-"%char a eq_refl).
    rewrite (separate_after_no_word "-"%char a eq_refl).
    by rewrite separate_digits.
Qed.

(** ** The handlers and the responses *)

Import OrderListSpec.

Section Handlers.
Context `{NumberFormat}.

(** X4.  A click on a row announces the deletion at once and sends
    [DELETE /orders/:id] for the id of the row, but [orders] and [total]
    stay as they are; the request is left to itself, so neither its success
    nor its failure changes the state or says anything further. *)
Theorem handleDelete_keeps_orders (w : World) (i : value) :
  phase w = Live →
  ∃ w1, step w (ClickOrder i) = Some w1
        ∧ requests w1
          = requests w
            ++ [{| method := DELETE;
                   url := "http://api.example.com/orders/" +:+ to_string i |}]
        ∧ orders (st w1) = orders (st w)
        ∧ total (st w1) = total (st w)
        ∧ alerts w1 = alerts w ++ ["삭제됨"]
        ∧ inflight w1 = inflight w ++ [Unused]
        ∧ (∀ data, ∃ w2, step w1 (Resolve (length (inflight w)) data) = Some w2
                         ∧ st w2 = st w1 ∧ alerts w2 = alerts w1)
        ∧ (∃ w2, step w1 (Reject (length (inflight w))) = Some w2
                 ∧ st w2 = st w1 ∧ alerts w2 = alerts w1).
Proof.
  intros Hlive. eexists. split.
  { unfold step, live. rewrite bool_decide_eq_true_2 by done. reflexivity. }
  do 5 (split; [done|]).
  assert (Hlast : (inflight w ++ [Unused]) !! length (inflight w) = Some Unused).
  { rewrite lookup_app_r by lia. by rewrite Nat.sub_diag. }
  split.
  - intros data. eexists.
    split; [cbn -[lookup]; cbn -[lookup] in Hlast; rewrite Hlast; reflexivity|done].
  - eexists.
    split; [cbn -[lookup]; cbn -[lookup] in Hlast; rewrite Hlast; reflexivity|done].
Qed.

Lemma with_method_app (m : Method) (l1 l2 : list Request) :
  with_method m (l1 ++ l2) = with_method m l1 ++ with_method m l2.
Proof. apply List.filter_app. Qed.

(** X5.  [trigger] counts the clicks on rows: in every reachable state it
    equals the number of alerts shown and the number of DELETE requests
    sent, and every alert is the deletion notice. *)
Theorem trigger_counts_deletes (w : World) :
  reachable w →
  trigger (st w) = Z.of_nat (length (alerts w))
  ∧ length (with_method DELETE (requests w)) = length (alerts w)
  ∧ Forall (λ msg, msg = "삭제됨") (alerts w).
Proof.
  revert w.
  apply (orders_reachable_ind'
           (λ w, trigger (st w) = Z.of_nat (length (alerts w))
                 ∧ length (with_method DELETE (requests w)) = length (alerts w)
                 ∧ Forall (λ msg, msg = "삭제됨") (alerts w))).
  - by repeat split.
  - intros w e w' (Ht & Hd & Ha) Hstep.
    orders_step_inv Hstep; simpl; unfold run_cleanup; simpl;
      rewrite ?with_method_app, ?length_app; simpl;
      (split; [|split]);
      first [ done | lia | apply Forall_app; split; [done|by constructor] ].
Qed.

(** X6.  Only a response to the first effect writes [total].  A response
    to the poll or to a search replaces [orders] and leaves [total], which
    then is no longer the sum over the orders shown unless the two happen
    to agree; and while no fetch of the first effect has succeeded, [total]
    is 0. *)
Theorem total_follows_first_effect_only :
  (∀ (w w' : World) (e : Event),
     fulfils_initial w e = false → step w e = Some w' →
     total (st w') = total (st w))
  ∧ (∀ (w : World) (n : nat) (k : Cont) (data : list Order),
       inflight w !! n = Some k → k = ThenPoll ∨ k = ThenSearch →
       ∃ w', step w (Resolve n data) = Some w'
             ∧ orders (st w') = data
             ∧ total (st w') = total (st w)
             ∧ (Finite (order_sum data) ≠ total (st w) →
                total (st w') ≠ Finite (order_sum (orders (st w'))))
             ∧ (compute_total data ≠ total (st w) →
                total (st w') ≠ compute_total (orders (st w'))))
  ∧ (∀ (es : list Event) (w : World),
       run_failing boot es = Some w → total (st w) = Finite 0%Qc).
Proof.
  assert (Hkeep : ∀ (w w' : World) (e : Event),
            fulfils_initial w e = false → step w e = Some w' →
            total (st w') = total (st w)).
  { intros w w' e Hf Hstep. unfold fulfils_initial in Hf.
    orders_step_inv Hstep; done. }
  split; [exact Hkeep|]. split.
  - intros w n k data Hn [-> | ->]; (eexists; split; [simpl; rewrite Hn; reflexivity|]);
      simpl; repeat split; congruence.
  - intros es. generalize boot (eq_refl : total (st boot) = Finite 0%Qc).
    induction es as [|e es IH]; intros w0 H0 w Hrun; simpl in Hrun.
    + by simplify_eq.
    + destruct (fulfils_initial w0 e) eqn:Ef; [done|].
      destruct (step w0 e) as [w1|] eqn:Es; [|done].
      apply (IH w1); [|exact Hrun]. by rewrite (Hkeep _ _ _ Ef Es).
Qed.

(** The chains whose response is written to [orders]. *)
Lemma resume_orders (k : Cont) (data : list Order) (w : World) :
  k ≠ Unused → orders (st (resume k data w)) = data.
Proof. by destruct k. Qed.

(** X7.  Responses are applied in the order they arrive, not in the order
    the requests were sent: of two chains in flight whose responses go to
    [orders], the one answered last decides what is shown, whichever was
    sent first. *)
Theorem last_response_wins
    (w : World) (n m : nat) (kn km : Cont) (dn dm : list Order) :
  (n < m)%nat →
  inflight w !! n = Some kn → inflight w !! m = Some km →
  kn ≠ Unused → km ≠ Unused →
  (∃ w1 w2, step w (Resolve m dm) = Some w1
            ∧ step w1 (Resolve n dn) = Some w2
            ∧ orders (st w2) = dn)
  ∧ (∃ w1 w2, step w (Resolve n dn) = Some w1
              ∧ step w1 (Resolve (m - 1) dm) = Some w2
              ∧ orders (st w2) = dm).
Proof.
  intros Hnm Hn Hm Hkn Hkm. split.
  - exists (resume km dm (settle m w)), (resume kn dn (settle n (resume km dm (settle m w)))).
    split; [cbn -[lookup resume]; by rewrite Hm|]. split; [|by apply resume_orders].
    assert (Hn' : inflight (resume km dm (settle m w)) !! n = Some kn).
    { replace (inflight (resume km dm (settle m w))) with (delete m (inflight w))
        by (by destruct km).
      by rewrite list_lookup_delete_lt. }
    cbn -[lookup resume]. by rewrite Hn'.
  - exists (resume kn dn (settle n w)), (resume km dm (settle (m - 1) (resume kn dn (settle n w)))).
    split; [cbn -[lookup resume]; by rewrite Hn|]. split; [|by apply resume_orders].
    assert (Hm' : inflight (resume kn dn (settle n w)) !! (m - 1)%nat = Some km).
    { replace (inflight (resume kn dn (settle n w))) with (delete n (inflight w))
        by (by destruct kn).
      rewrite list_lookup_delete_ge by lia.
      by replace (S (m - 1)) with m by lia. }
    cbn -[lookup resume]. by rewrite Hm'.
Qed.

(** While no fetch of the first effect succeeds, every
    render after the mount shows the loading line. *)
Lemma orders_spinner_stays (es : list Event) (w : World) :
  run_failing boot (Mount :: es) = Some w → spinner (render (st w)) = true.
Proof. intros Hrun. simpl. by apply orders_loading_stuck with es. Qed.

End Handlers.

(** ** The highlighted row *)

Section Highlight.
Context `{NumberFormat} `{NumberParse}.

Lemma step_selectedId (w w' : World) (e : Event) :
  step w e = Some w' → selectedId (st w') = selectedId (st w).
Proof. intros Hstep. orders_step_inv Hstep; done. Qed.

(** X8.  Nothing ever selects an order: [selectedId] stays [null], and
    since [null == x] holds for [null] and [undefined] only, the rows with
    the blue border are exactly those of orders that have no id. *)
Theorem only_orders_without_id_are_highlighted (w : World) (order : Order) :
  reachable w →
  selectedId (st w) = VNull
  ∧ border (st w) order
    = match id order with
      | VUndefined | VNull => "2px solid blue"
      | _ => "none"
      end.
Proof.
  intros Hr.
  assert (Hsel : selectedId (st w) = VNull).
  { revert w Hr. apply (orders_reachable_ind' (λ w, selectedId (st w) = VNull)); [done|].
    intros w e w' IH Hstep. by rewrite (step_selectedId _ _ _ Hstep). }
  split; [exact Hsel|]. unfold border. rewrite Hsel.
  by destruct (id order).
Qed.

End Highlight.

End OrderListMore.

(** * Further properties of UserProfile *)

Module UserProfileMore.
Import UserProfile UserProfileSpec.

(** X9.  [calculateAge] counts the birthdays reached: for every [k], the
    age is at least [k] exactly when the date of the [k]-th birthday is not
    after today.  So the age goes up on the birthday itself, is 0 on the
    day of birth and negative for a birth date in the future. *)
Theorem calculateAge_counts_birthdays (today birth : Date) (k : Z) :
  (k ≤ calculateAge today birth)%Z ↔ birthday_reached k today birth.
Proof.
  unfold calculateAge, birthday_reached.
  destruct (getMonth today - getMonth birth <? 0)%Z eqn:Em;
    [apply Z.ltb_lt in Em | apply Z.ltb_ge in Em];
    destruct (getMonth today - getMonth birth =? 0)%Z eqn:Ez;
    [apply Z.eqb_eq in Ez | apply Z.eqb_neq in Ez
    |apply Z.eqb_eq in Ez | apply Z.eqb_neq in Ez];
    destruct (getDate today <? getDate birth)%Z eqn:Ed;
    [apply Z.ltb_lt in Ed | apply Z.ltb_ge in Ed
    |apply Z.ltb_lt in Ed | apply Z.ltb_ge in Ed
    |apply Z.ltb_lt in Ed | apply Z.ltb_ge in Ed
    |apply Z.ltb_lt in Ed | apply Z.ltb_ge in Ed];
    simpl; lia.
Qed.

Section Machine.
Context `{NumberFormat}.

(** X16.  The heading is never blank: whatever [userData] holds,
    [getFullName] returns a truthy value. *)
Theorem getFullName_is_truthy (userData : option (User ref)) :
  truthy (getFullName userData) = true.
Proof.
  destruct userData as [u|]; [|done]. unfold getFullName.
  destruct (truthy (firstName u)) eqn:Ef; [|done].
  destruct (truthy (lastName u)) eqn:El; [|done].
  simpl. apply negb_true_iff, bool_decide_eq_false.
  destruct (to_string (firstName u)); simpl; done.
Qed.

Lemma props_kept (w w' : World) (e : Event) :
  step w e = Some w' → props_id w' = props_id w.
Proof. intros Hstep. profile_step_inv Hstep; done. Qed.

(** X10.  The user is fetched once: before the mount no request has been
    sent, and from the mount on the GET requests sent are the single one
    for the [props.id] the component was created with, whatever is
    rendered, clicked or answered afterwards. *)
Theorem user_fetched_once (i : value) (es : list Event) (w : World) :
  run (boot i) es = Some w →
  with_method GET (requests w)
  = if decide (phase w = Fresh) then [] else [user_request i].
Proof.
  intros Hrun.
  pose (P := λ w : World,
          props_id w = i
          ∧ with_method GET (requests w)
            = if decide (phase w = Fresh) then [] else [user_request i]).
  cut (P w); [by intros [_ ?]|].
  eapply (profile_run_preserves P); [| |exact Hrun]; subst P; simpl; [|done].
  intros w0 e w' [Hp Hg] Hstep.
  split; [by rewrite (props_kept _ _ _ Hstep)|].
  unfold controls in Hstep.
  profile_step_inv Hstep; simpl; unfold run_cleanup; simpl;
    rewrite ?OrderListMore.with_method_app; simpl;
    repeat case_decide; simplify_eq; try done;
    try (rewrite Hg; simpl; by rewrite ?app_nil_r).
  all: repeat match goal with
       | Hc : _ && _ = true |- _ => apply andb_prop in Hc as [Hc ?]
       | Hc : bool_decide _ = true |- _ => apply bool_decide_eq_true in Hc
       end; congruence.
Qed.

(** Every reference held stays inside the memory. *)
Lemma refs_valid_step (w w' : World) (e : Event) :
  refs_valid w → step w e = Some w' → refs_valid w'.
Proof.
  intros [Hi Hs Hf] Hstep.
  assert (Hclosure : (items (closure w) < length (heap w))%nat).
  { unfold closure. destruct (shown w) as [c|] eqn:E; simpl; eauto. }
  profile_step_inv Hstep;
    (split; [|intros c0 Hc0|intros itemId0 r0 Hin0]);
    unfold commit_unmount, run_cleanup in *; simpl in *;
    rewrite ?length_app, ?length_insert; simpl;
    simplify_eq;
    repeat match goal with
    | Hin : _ ∈ delete _ _ |- _ => apply list_elem_of_delete_inv in Hin
    | Hin : _ ∈ _ ++ [_] |- _ =>
        apply elem_of_app in Hin as [Hin|Hin];
        [|apply list_elem_of_singleton in Hin; simplify_eq]
    | Hc : shown _ = Some _ |- _ => apply Hs in Hc
    | Hin : AfterDelete _ _ ∈ inflight _ |- _ => apply Hf in Hin
    end; try lia.
Qed.

Lemma refs_valid_holds (w : World) : reachable w → refs_valid w.
Proof.
  revert w. apply (profile_reachable_ind' refs_valid).
  - intros i. split; simpl; [lia|done|].
    intros itemId r Hin. by apply elem_of_nil in Hin.
  - intros w e w'. apply refs_valid_step.
Qed.

Lemma deref_app_valid (h : Heap) (l : list Item) (r : ref) :
  (r < length h)%nat → deref (h ++ [l]) r = deref h r.
Proof. intros Hr. unfold deref. by rewrite lookup_app_l. Qed.

Lemma resolve_delete (w : World) (n : nat) (a : value) (r : ref) (d : User (list Item)) :
  inflight w !! n = Some (AfterDelete a r) →
  step w (Resolve n d) = Some (handleDelete_resumed a r (settle n w)).
Proof. intros Hn. simpl. by rewrite Hn. Qed.

(** X11.  Two deletions waiting on the same render undo one another: each
    filters the array that render saw, so after both responses [items] is
    that array without the item answered last only, and the item answered
    first is back in the list, in either order of arrival. *)
Theorem concurrent_deletes_lose_one
    (w : World) (n m : nat) (a b : value) (r : ref) (d1 d2 : User (list Item)) :
  reachable w → (n < m)%nat →
  inflight w !! n = Some (AfterDelete a r) →
  inflight w !! m = Some (AfterDelete b r) →
  (∃ w1 w2, step w (Resolve n d1) = Some w1
            ∧ step w1 (Resolve (m - 1) d2) = Some w2
            ∧ deref (heap w2) (items (st w2)) = keep_others b (deref (heap w) r)
            ∧ ∀ x, x ∈ deref (heap w) r → id x = a → a ≠ b →
                   x ∈ deref (heap w2) (items (st w2)))
  ∧ (∃ w1 w2, step w (Resolve m d2) = Some w1
              ∧ step w1 (Resolve n d1) = Some w2
              ∧ deref (heap w2) (items (st w2)) = keep_others a (deref (heap w) r)
              ∧ ∀ x, x ∈ deref (heap w) r → id x = b → a ≠ b →
                     x ∈ deref (heap w2) (items (st w2))).
Proof.
  intros Hreach Hnm Hn Hm.
  assert (Hr : (r < length (heap w))%nat).
  { apply (valid_inflight _ (refs_valid_holds _ Hreach) a).
    by apply list_elem_of_lookup_2 with n. }
  split.
  - exists (handleDelete_resumed a r (settle n w)),
           (handleDelete_resumed b r (settle (m - 1) (handleDelete_resumed a r (settle n w)))).
    split; [by apply resolve_delete|]. split.
    { apply resolve_delete. cbn -[lookup].
      rewrite list_lookup_delete_ge by lia. by replace (S (m - 1)) with m by lia. }
    assert (Hfinal : deref (heap (handleDelete_resumed b r (settle (m - 1)
                              (handleDelete_resumed a r (settle n w)))))
                       (items (st (handleDelete_resumed b r (settle (m - 1)
                              (handleDelete_resumed a r (settle n w))))))
                     = keep_others b (deref (heap w) r)).
    { cbn -[deref keep_others]. rewrite deref_alloc. by rewrite deref_app_valid. }
    split; [exact Hfinal|].
    intros x Hx Hid Hab. rewrite Hfinal. apply keep_others_spec. split; congruence.
  - exists (handleDelete_resumed b r (settle m w)),
           (handleDelete_resumed a r (settle n (handleDelete_resumed b r (settle m w)))).
    split; [by apply resolve_delete|]. split.
    { apply resolve_delete. cbn -[lookup]. by rewrite list_lookup_delete_lt. }
    assert (Hfinal : deref (heap (handleDelete_resumed a r (settle n
                              (handleDelete_resumed b r (settle m w)))))
                       (items (st (handleDelete_resumed a r (settle n
                              (handleDelete_resumed b r (settle m w))))))
                     = keep_others a (deref (heap w) r)).
    { cbn -[deref keep_others]. rewrite deref_alloc. by rewrite deref_app_valid. }
    split; [exact Hfinal|].
    intros x Hx Hid Hab. rewrite Hfinal. apply keep_others_spec. split; congruence.
Qed.

Lemma deref_insert_eq (h : Heap) (r : ref) (l : list Item) :
  (r < length h)%nat → deref (<[r := l]> h) r = l.
Proof. intros Hr. unfold deref. by rewrite list_lookup_insert_eq. Qed.

Lemma deref_insert_ne (h : Heap) (r r' : ref) (l : list Item) :
  r ≠ r' → deref (<[r := l]> h) r' = deref h r'.
Proof. intros Hr. unfold deref. by rewrite list_lookup_insert_ne. Qed.

(** What a click on the add button does. *)
Lemma add_click_effect (w : World) (r : Qc) :
  reachable w → controls w = true → (0 ≤ r)%Qc → (r < 1)%Qc →
  ∃ w', step w (ClickAdd r) = Some w'
        ∧ length (heap w') = length (heap w)
        ∧ deref (heap w') (items (closure w))
          = deref (heap w) (items (closure w)) ++ [added_item r]
        ∧ (∀ r', r' ≠ items (closure w) → deref (heap w') r' = deref (heap w) r')
        ∧ items (st w') = items (closure w)
        ∧ userData (st w') = userData (st w)
        ∧ loading (st w') = loading (st w)
        ∧ error (st w') = error (st w)
        ∧ count (st w') = count (st w)
        ∧ (shown w = Some (st w) → st w' = st w).
Proof.
  intros Hreach Hc H0 H1.
  assert (Hr : (items (closure w) < length (heap w))%nat).
  { destruct (controls_shown _ Hc) as (_ & c & Hs & _).
    unfold closure. rewrite Hs. simpl.
    by apply (valid_shown _ (refs_valid_holds _ Hreach)). }
  eexists. split.
  { cbn -[controls onAddClick]. rewrite Hc.
    rewrite !bool_decide_eq_true_2 by done. reflexivity. }
  cbn -[deref closure]. rewrite length_insert.
  split; [done|]. split; [by apply deref_insert_eq|].
  split; [intros r' Hne; by apply deref_insert_ne|].
  do 5 (split; [done|]).
  intros Hs. unfold closure. rewrite Hs. simpl. by destruct (st w).
Qed.


(** X13.  When the user arrives, [loading] is cleared, [userData] is the
    object received and [items] is its [items] array itself, not a copy:
    the two share one reference, so an item pushed on [items] is also in
    [userData.items]. *)
Theorem user_items_are_shared (w : World) (n : nat) (data : User (list Item)) :
  inflight w !! n = Some ThenUser →
  ∃ w' u, step w (Resolve n data) = Some w'
          ∧ userData (st w') = Some u
          ∧ loading (st w') = false
          ∧ (firstName u, lastName u, email u, birthDate u, status u, bio u)
            = (firstName data, lastName data, email data, birthDate data,
               status data, bio data)
          ∧ user_items u = items (st w')
          ∧ deref (heap w') (items (st w')) = user_items data
          ∧ ∀ x, deref (heap (push (items (st w')) x w')) (user_items u)
                 = user_items data ++ [x].
Proof.
  intros Hn. eexists _, _. split; [simpl; rewrite Hn; reflexivity|].
  cbn -[deref]. do 4 (split; [done|]).
  rewrite deref_alloc. split; [done|].
  intros x. rewrite deref_insert_eq; [done|]. rewrite length_app. simpl. lia.
Qed.

(** While the fetch of the user does not succeed,
    every render after the mount is the loading line. *)
Lemma profile_loading_view_stays (i : value) (es : list Event) (w : World) :
  run_failing (boot i) (Mount :: es) = Some w →
  render (st w) (heap w) = LoadingView.
Proof.
  intros Hrun. unfold render. by rewrite (profile_loading_stuck i es w Hrun).
Qed.

End Machine.
End UserProfileMore.

(** * Further properties of the two components together *)

Section MoreClaims.
Context `{NumberFormat}.

(** X14.  A failed first fetch leaves the loading line up for good: along
    every run in which no fetch of the first effect succeeds, each render
    after the mount shows the loading paragraph in OrderList and is the
    loading view, with nothing else, in UserProfile. *)
Theorem loading_shown_while_fetch_fails :
  (∀ (es : list OrderList.Event) (w : OrderList.World),
     OrderList.run_failing OrderList.boot (OrderList.Mount :: es) = Some w →
     OrderList.spinner (OrderList.render (OrderList.st w)) = true)
  ∧ (∀ (i : value) (es : list UserProfile.Event) (w : UserProfile.World),
       UserProfile.run_failing (UserProfile.boot i) (UserProfile.Mount :: es) = Some w →
       UserProfile.render (UserProfile.st w) (UserProfile.heap w)
       = UserProfile.LoadingView).
Proof.
  split.
  - apply OrderListMore.orders_spinner_stays.
  - apply UserProfileMore.profile_loading_view_stays.
Qed.

End MoreClaims.

(** * The further properties at sample inputs *)

Section MoreSamples.
#[local] Existing Instance integral_format.
#[local] Existing Instance integral_parse.

Lemma formatPrice_groups_thousands_witness :
  all_digits (number_to_string (Q2Qc 1234567)) = true
  ∧ OrderList.formatPrice (Q2Qc 1234567) = "1,234,567원".
Proof.
  split; [vm_compute; reflexivity|].
  destruct (OrderListMore.formatPrice_groups_thousands (Q2Qc 1234567)) as [Hf _];
    [vm_compute; reflexivity|].
  rewrite Hf. vm_compute. reflexivity.
Defined.

Lemma separate_fraction_and_sign_witness :
  all_digits "1234" = true ∧ all_digits "5678" = true
  ∧ OrderList.separate None "1234.5678" = "1,234.5,678"
  ∧ OrderList.separate None "-1234" = "-1,234".
Proof.
  split; [reflexivity|]. split; [reflexivity|].
  exact (OrderListMore.separate_fraction_and_sign "1234" "5678" eq_refl eq_refl).
Defined.

Lemma handleDelete_keeps_orders_witness :
  OrderList.phase OrderSample.loaded = Live
  ∧ ∃ w1, OrderList.step OrderSample.loaded (OrderList.ClickOrder (VStr "o-1")) = Some w1
          ∧ OrderList.requests w1
            = OrderList.requests OrderSample.loaded
              ++ [{| method := DELETE; url := "http://api.example.com/orders/o-1" |}]
          ∧ OrderList.orders (OrderList.st w1) = [OrderSample.order; OrderSample.order]
          ∧ OrderList.alerts w1 = ["삭제됨"].
Proof.
  split; [reflexivity|].
  destruct (OrderListMore.handleDelete_keeps_orders OrderSample.loaded (VStr "o-1") eq_refl)
    as (w1 & Hstep & Hreq & Horders & _ & Halerts & _).
  exists w1. split; [exact Hstep|]. split; [exact Hreq|].
  split; [exact Horders|exact Halerts].
Defined.

Lemma trigger_counts_deletes_witness :
  OrderList.reachable OrderSample.unmounted
  ∧ OrderList.trigger (OrderList.st OrderSample.unmounted) = 1%Z
  ∧ length (with_method DELETE (OrderList.requests OrderSample.unmounted)) = 1%nat.
Proof.
  assert (Hr : OrderList.reachable OrderSample.unmounted)
    by (exists OrderSample.trace_unmounted; vm_compute; reflexivity).
  split; [exact Hr|].
  destruct (OrderListMore.trigger_counts_deletes _ Hr) as (Ht & Hd & _).
  split; [exact Ht|exact Hd].
Defined.

Lemma total_follows_first_effect_only_witness :
  OrderList.inflight OrderSample.polling !! 1 = Some OrderList.ThenPoll
  ∧ Finite (OrderList.order_sum [OrderSample.order])
    ≠ OrderList.total (OrderList.st OrderSample.polling)
  ∧ OrderList.run_failing OrderList.boot OrderSample.trace_failed = Some OrderSample.failed
  ∧ (∃ w', OrderList.step OrderSample.polling (OrderList.Resolve 1 [OrderSample.order])
           = Some w'
           ∧ OrderList.orders (OrderList.st w') = [OrderSample.order]
           ∧ OrderList.total (OrderList.st w') = Finite 0%Qc
           ∧ OrderList.total (OrderList.st w')
             ≠ Finite (OrderList.order_sum (OrderList.orders (OrderList.st w'))))
  ∧ OrderList.total (OrderList.st OrderSample.failed) = Finite 0%Qc.
Proof.
  assert (Hne : Finite (OrderList.order_sum [OrderSample.order])
                ≠ OrderList.total (OrderList.st OrderSample.polling)).
  { intros Heq. vm_compute in Heq. injection Heq as Hq. discriminate Hq. }
  assert (Hrun : OrderList.run_failing OrderList.boot OrderSample.trace_failed
                 = Some OrderSample.failed) by (vm_compute; reflexivity).
  destruct OrderListMore.total_follows_first_effect_only as (_ & Hpoll & Hzero).
  split; [reflexivity|]. split; [exact Hne|]. split; [exact Hrun|]. split.
  - destruct (Hpoll OrderSample.polling 1%nat OrderList.ThenPoll [OrderSample.order]
                eq_refl (or_introl eq_refl))
      as (w' & Hstep & Horders & Htotal & Hstale & _).
    exists w'. split; [exact Hstep|]. split; [exact Horders|].
    split; [exact Htotal|exact (Hstale Hne)].
  - exact (Hzero _ _ Hrun).
Defined.

Lemma last_response_wins_witness :
  (1 < 2)%nat
  ∧ OrderList.inflight OrderSample.searching !! 1 = Some OrderList.ThenSearch
  ∧ OrderList.inflight OrderSample.searching !! 2 = Some OrderList.ThenSearch
  ∧ OrderList.ThenSearch ≠ OrderList.Unused
  ∧ ∃ w1 w2,
      OrderList.step OrderSample.searching (OrderList.Resolve 2 [OrderSample.order])
      = Some w1
      ∧ OrderList.step w1 (OrderList.Resolve 1 []) = Some w2
      ∧ OrderList.orders (OrderList.st w2) = [].
Proof.
  split; [lia|]. split; [reflexivity|]. split; [reflexivity|]. split; [done|].
  exact (proj1 (OrderListMore.last_response_wins OrderSample.searching 1 2
                  OrderList.ThenSearch OrderList.ThenSearch [] [OrderSample.order]
                  ltac:(lia) eq_refl eq_refl ltac:(done) ltac:(done))).
Defined.

Lemma only_orders_without_id_are_highlighted_witness :
  OrderList.reachable OrderSample.loaded
  ∧ OrderList.border (OrderList.st OrderSample.loaded) OrderSample.order_without_id
    = "2px solid blue"
  ∧ OrderList.border (OrderList.st OrderSample.loaded) OrderSample.order = "none".
Proof.
  assert (Hr : OrderList.reachable OrderSample.loaded)
    by (exists OrderSample.trace_loaded; vm_compute; reflexivity).
  split; [exact Hr|]. split.
  - exact (proj2 (OrderListMore.only_orders_without_id_are_highlighted
                    OrderSample.loaded OrderSample.order_without_id Hr)).
  - exact (proj2 (OrderListMore.only_orders_without_id_are_highlighted
                    OrderSample.loaded OrderSample.order Hr)).
Defined.

Lemma user_fetched_once_witness :
  UserProfile.run (UserProfile.boot (VStr "u-7")) UserSample.trace_deleting_two
  = Some UserSample.deleting_two
  ∧ with_method GET (UserProfile.requests UserSample.deleting_two)
    = [{| method := GET; url := "https://api.example.com/users/u-7" |}].
Proof.
  assert (Hrun : UserProfile.run (UserProfile.boot (VStr "u-7")) UserSample.trace_deleting_two
                 = Some UserSample.deleting_two) by (vm_compute; reflexivity).
  split; [exact Hrun|].
  exact (UserProfileMore.user_fetched_once _ _ _ Hrun).
Defined.

Lemma concurrent_deletes_lose_one_witness :
  UserProfile.reachable UserSample.deleting_two
  ∧ (0 < 1)%nat
  ∧ UserProfile.inflight UserSample.deleting_two !! 0
    = Some (UserProfile.AfterDelete (VStr "a") 1)
  ∧ UserProfile.inflight UserSample.deleting_two !! 1
    = Some (UserProfile.AfterDelete (VStr "b") 1)
  ∧ ∃ w1 w2,
      UserProfile.step UserSample.deleting_two (UserProfile.Resolve 0 UserSample.nobody)
      = Some w1
      ∧ UserProfile.step w1 (UserProfile.Resolve 0 UserSample.nobody) = Some w2
      ∧ UserProfile.deref (UserProfile.heap w2) (UserProfile.items (UserProfile.st w2))
        = [UserSample.item_of "a"].
Proof.
  assert (Hr : UserProfile.reachable UserSample.deleting_two)
    by (exists (VStr "u-7"), UserSample.trace_deleting_two; vm_compute; reflexivity).
  split; [exact Hr|]. split; [lia|]. split; [reflexivity|]. split; [reflexivity|].
  destruct (proj1 (UserProfileMore.concurrent_deletes_lose_one UserSample.deleting_two
                     0 1 (VStr "a") (VStr "b") 1 UserSample.nobody UserSample.nobody
                     Hr ltac:(lia) eq_refl eq_refl))
    as (w1 & w2 & H1 & H2 & Hitems & _).
  exists w1, w2. split; [exact H1|]. split; [exact H2|].
  rewrite Hitems. vm_compute. reflexivity.
Defined.


Lemma user_items_are_shared_witness :
  UserProfile.inflight UserSample.mounted !! 0 = Some UserProfile.ThenUser
  ∧ ∃ w' u,
      UserProfile.step UserSample.mounted (UserProfile.Resolve 0 UserSample.user) = Some w'
      ∧ UserProfile.userData (UserProfile.st w') = Some u
      ∧ UserProfile.user_items u = UserProfile.items (UserProfile.st w')
      ∧ UserProfile.deref (UserProfile.heap w') (UserProfile.items (UserProfile.st w'))
        = [UserSample.item_of "a"; UserSample.item_of "b"].
Proof.
  split; [reflexivity|].
  destruct (UserProfileMore.user_items_are_shared UserSample.mounted 0 UserSample.user eq_refl)
    as (w' & u & Hstep & Hu & _ & _ & Hshared & Hitems & _).
  exists w', u. split; [exact Hstep|]. split; [exact Hu|].
  split; [exact Hshared|exact Hitems].
Defined.

Lemma loading_shown_while_fetch_fails_witness :
  OrderList.run_failing OrderList.boot
    (OrderList.Mount :: [OrderList.Reject 0; OrderList.Render; OrderList.Reject 0])
  = Some OrderSample.failed
  ∧ UserProfile.run_failing (UserProfile.boot (VStr "u-7"))
      (UserProfile.Mount :: [UserProfile.Reject 0; UserProfile.Render])
    = Some UserSample.failed
  ∧ OrderList.spinner (OrderList.render (OrderList.st OrderSample.failed)) = true
  ∧ UserProfile.render (UserProfile.st UserSample.failed) (UserProfile.heap UserSample.failed)
    = UserProfile.LoadingView.
Proof.
  assert (Hro : OrderList.run_failing OrderList.boot
                  (OrderList.Mount :: [OrderList.Reject 0; OrderList.Render; OrderList.Reject 0])
                = Some OrderSample.failed) by (vm_compute; reflexivity).
  assert (Hru : UserProfile.run_failing (UserProfile.boot (VStr "u-7"))
                  (UserProfile.Mount :: [UserProfile.Reject 0; UserProfile.Render])
                = Some UserSample.failed) by (vm_compute; reflexivity).
  split; [exact Hro|]. split; [exact Hru|]. split.
  - exact (proj1 loading_shown_while_fetch_fails _ _ Hro).
  - exact (proj2 loading_shown_while_fetch_fails _ _ _ Hru).
Defined.

(** Thirty-three years and 364 days: the birthday is tomorrow. *)
Example age_the_day_before_the_birthday :
  UserProfile.calculateAge UserSample.today UserSample.born = 33%Z.
Proof. reflexivity. Qed.

End MoreSamples.

(** * Renders of UserProfile *)

Module UserProfileRenders.
Import UserProfile UserProfileSpec.

Section Renders.
Context `{NumberFormat}.

Lemma step_console (w w' : World) (e : Event) :
  step w e = Some w' →
  length (console w') = (length (console w) + if is_render e then 1 else 0)%nat.
Proof.
  intros Hstep.
  profile_step_inv Hstep; simpl; unfold commit_unmount, run_cleanup; simpl;
    rewrite ?length_app; simpl; lia.
Qed.

Lemma run_console (es : list Event) (w0 w : World) :
  run w0 es = Some w →
  length (console w) = (length (console w0) + length (List.filter is_render es))%nat.
Proof.
  revert w0. induction es as [|e es IH]; intros w0 Hrun; simpl in Hrun.
  - simplify_eq. simpl. lia.
  - destruct (step w0 e) as [w1|] eqn:Es; [|done]. simpl in Hrun.
    rewrite (IH _ Hrun), (step_console _ _ _ Es). simpl.
    destruct (is_render e); simpl; lia.
Qed.

(** X15.  The second effect has no dependency array and logs once after
    every render: along any run the console holds as many entries as there
    were renders, the mount included, and no other event logs. *)
Theorem console_logs_every_render (i : value) (es : list Event) (w : World) :
  run (boot i) es = Some w →
  length (console w) = length (List.filter is_render es).
Proof. intros Hrun. by rewrite (run_console _ _ _ Hrun). Qed.

(** A render changes neither the state nor the memory. *)
Lemma render_step_frame (w : World) :
  phase w = Live →
  ∃ w', step w Render = Some w' ∧ st w' = st w ∧ heap w' = heap w.
Proof.
  intros Hlive. eexists. split.
  - unfold step, live. rewrite bool_decide_eq_true_2 by done. reflexivity.
  - done.
Qed.

Lemma renderItems_snoc (l : list Item) (x : Item) :
  renderItems (l ++ [x])
  = renderItems l
    ++ [{| key := length l;
           backgroundColor := if truthy (isActive x) then "green" else "red";
           row_name := name x;
           row_price := price x |}].
Proof.
  unfold renderItems. rewrite imap_app. simpl. by rewrite Nat.add_0_r.
Qed.

(** X17.  With the last render current, a click on the add button followed
    by a render shows one item more: the heading and the other details are
    as before, the count in the title is up by one, and the list ends with
    a new green row named "새 아이템", priced 0, whose key is its position. *)
Theorem added_item_shows_after_render (w : World) (r : Qc) :
  reachable w → controls w = true → shown w = Some (st w) →
  (0 ≤ r)%Qc → (r < 1)%Qc →
  ∃ w1 w2 heading d0 d,
    step w (ClickAdd r) = Some w1
    ∧ step w1 Render = Some w2
    ∧ render (st w) (heap w) = ProfileView heading (Some d0)
    ∧ render (st w2) (heap w2) = ProfileView heading (Some d)
    ∧ item_count d = S (item_count d0)
    ∧ rows d
      = rows d0
        ++ [{| key := item_count d0; backgroundColor := "green";
               row_name := VStr "새 아이템"; row_price := VNum 0%Qc |}]
    ∧ (email_text d, status_label d, clicks d, dangerouslySetInnerHTML d)
      = (email_text d0, status_label d0, clicks d0, dangerouslySetInnerHTML d0).
Proof.
  intros Hreach Hc Hs H0 H1.
  destruct (controls_shown _ Hc) as (Hlive & c & Hs' & Hload & Herr & [u Hu]).
  rewrite Hs in Hs'. injection Hs' as <-.
  destruct (UserProfileMore.add_click_effect w r Hreach Hc H0 H1)
    as (w1 & Hstep & _ & Hgrown & _ & _ & _ & _ & _ & _ & Hsame).
  specialize (Hsame Hs).
  assert (Hitems : items (closure w) = items (st w)) by (unfold closure; by rewrite Hs).
  rewrite Hitems in Hgrown.
  assert (Hphase : phase w1 = Live).
  { unfold step in Hstep. rewrite Hc in Hstep.
    rewrite !bool_decide_eq_true_2 in Hstep by done. simpl in Hstep.
    by injection Hstep as <-. }
  destruct (render_step_frame w1 Hphase) as (w2 & Hstep2 & Hst2 & Hheap2).
  exists w1, w2.
  eexists _, _, _. split; [exact Hstep|]. split; [exact Hstep2|].
  unfold render. rewrite Hst2, Hheap2, Hsame, Hload, Herr, Hu.
  cbn -[deref renderItems getFullName].
  split; [reflexivity|]. split; [reflexivity|].
  cbn -[deref renderItems]. rewrite Hgrown.
  rewrite length_app, renderItems_snoc. cbn -[deref renderItems].
  split; [lia|]. split; [done|done].
Qed.

End Renders.
End UserProfileRenders.

Section RenderSamples.
#[local] Existing Instance integral_format.

Lemma console_logs_every_render_witness :
  UserProfile.run (UserProfile.boot (VStr "u-7")) UserSample.trace_deleting_two
  = Some UserSample.deleting_two
  ∧ length (UserProfile.console UserSample.deleting_two) = 3%nat.
Proof.
  assert (Hrun : UserProfile.run (UserProfile.boot (VStr "u-7")) UserSample.trace_deleting_two
                 = Some UserSample.deleting_two) by (vm_compute; reflexivity).
  split; [exact Hrun|].
  exact (UserProfileRenders.console_logs_every_render _ _ _ Hrun).
Defined.

Lemma added_item_shows_after_render_witness :
  UserProfile.reachable UserSample.loaded
  ∧ UserProfile.controls UserSample.loaded = true
  ∧ UserProfile.shown UserSample.loaded = Some (UserProfile.st UserSample.loaded)
  ∧ (0 ≤ Q2Qc (1 # 2))%Qc ∧ (Q2Qc (1 # 2) < 1)%Qc
  ∧ ∃ w1 w2 heading d0 d,
      UserProfile.step UserSample.loaded (UserProfile.ClickAdd (Q2Qc (1 # 2))) = Some w1
      ∧ UserProfile.step w1 UserProfile.Render = Some w2
      ∧ UserProfile.render (UserProfile.st UserSample.loaded)
          (UserProfile.heap UserSample.loaded)
        = UserProfile.ProfileView heading (Some d0)
      ∧ UserProfile.render (UserProfile.st w2) (UserProfile.heap w2)
        = UserProfile.ProfileView heading (Some d)
      ∧ UserProfile.item_count d = S (UserProfile.item_count d0).
Proof.
  assert (Hr : UserProfile.reachable UserSample.loaded)
    by (exists (VStr "u-7"), UserSample.trace_loaded; vm_compute; reflexivity).
  assert (H0 : (0 ≤ Q2Qc (1 # 2))%Qc) by (vm_compute; discriminate).
  assert (H1 : (Q2Qc (1 # 2) < 1)%Qc) by (vm_compute; reflexivity).
  split; [exact Hr|]. split; [reflexivity|]. split; [reflexivity|].
  split; [exact H0|]. split; [exact H1|].
  destruct (UserProfileRenders.added_item_shows_after_render UserSample.loaded
              (Q2Qc (1 # 2)) Hr eq_refl eq_refl H0 H1)
    as (w1 & w2 & heading & d0 & d & Hs1 & Hs2 & Hv0 & Hv & Hcount & _).
  exists w1, w2, heading, d0, d. repeat (split; [assumption|]). exact Hcount.
Defined.

End RenderSamples.
